(** * S1 module firmware (s1.c): power controller and flash bring-up

    A shallow embedding of the functions of [s1.c] that drive the PMIC over
    I2C and the flash over SPI.  Bus traffic is recorded as a list of
    events; what the hardware answers is a function of the traffic so far.
    The voltage arguments are IEEE 754 binary32 values, compared and
    computed with in binary64 exactly as C's usual arithmetic conversions
    prescribe. *)

From Stdlib Require Import ZArith QArith Qround List Bool Lia.
From Stdlib Require Import Floats.SpecFloat.
Import ListNotations.

Local Open Scope Z_scope.

(** ** IEEE 754 arithmetic of the C types [float] and [double] *)

Module IEEE.

Definition prec32 : Z := 24.
Definition emax32 : Z := 128.
Definition prec64 : Z := 53.
Definition emax64 : Z := 1024.

(** A well-formed [float] argument. *)
Definition is_float (x : spec_float) : bool := valid_binary prec32 emax32 x.

(** A well-formed [double]. *)
Definition is_double (x : spec_float) : bool := valid_binary prec64 emax64 x.

(** The promotion of a [float] operand to [double]; it is exact, the
    mantissa is only re-aligned. *)
Definition double_of_float (x : spec_float) : spec_float :=
  match x with
  | S754_finite s m e => binary_round prec64 emax64 s m e
  | _ => x
  end.

(** The [double] nearest to the decimal literal [n / d]. *)
Definition dlit (n d : Z) : spec_float :=
  SFdiv prec64 emax64
    (binary_normalize prec64 emax64 n 0 false)
    (binary_normalize prec64 emax64 d 0 false).

(** The [float] nearest to the decimal literal [n / d]. *)
Definition flit (n d : Z) : spec_float :=
  SFdiv prec32 emax32
    (binary_normalize prec32 emax32 n 0 false)
    (binary_normalize prec32 emax32 d 0 false).

(** The mantissa of the double nearest to 0.8 (exponent -53); 0.05 and
    0.025 have the same mantissa with exponents -57 and -58. *)
Definition m08 : positive := 7205759403792794.

Definition dlt (x y : spec_float) : bool := SFltb x y.
Definition dgt (x y : spec_float) : bool := SFltb y x.
Definition dle (x y : spec_float) : bool := SFleb x y.
Definition deq (x y : spec_float) : bool := SFeqb x y.
Definition dsub (x y : spec_float) : spec_float := SFsub prec64 emax64 x y.
Definition ddiv (x y : spec_float) : spec_float := SFdiv prec64 emax64 x y.

(** The integral part of a finite value, rounded toward zero. *)
Definition trunc (x : spec_float) : option Z :=
  match x with
  | S754_zero _ => Some 0
  | S754_finite false m e => Some (Z.shiftl (Zpos m) e)
  | S754_finite true m e => Some (- Z.shiftl (Zpos m) e)
  | S754_infinity _ | S754_nan => None
  end.

(** Conversion of a [double] to [uint8_t] (C11 6.3.1.4): the fractional
    part is discarded; when the integral part does not fit the type, or the
    value is an infinity or a NaN, the behaviour is undefined ([None]). *)
Definition to_uint8 (x : spec_float) : option Z :=
  match trunc x with
  | Some t => if (0 <=? t) && (t <=? 255) then Some t else None
  | None => None
  end.

End IEEE.

Import IEEE.

(** ** Bus traffic and the hardware behind it *)

(** The error codes of [s1.h] that [s1.c] returns. *)
Inductive s1_error_t : Type :=
  | S1_SUCCESS
  | S1_INVALID_SETTING
  | S1_FLASH_ERROR
  | S1_PMIC_ERROR.

(** The pinout of [s1.c].  [NRF_GPIO_PIN_MAP] of the vendor SDK: five bits
    of pin number under the port number. *)
Definition NRF_GPIO_PIN_MAP (port pin : Z) : Z :=
  Z.lor (Z.shiftl port 5) (Z.land pin 0x1F).

Definition SPI_SI_PIN : Z := NRF_GPIO_PIN_MAP 0 8.
Definition SPI_SO_PIN : Z := NRF_GPIO_PIN_MAP 0 11.
Definition SPI_CS_PIN : Z := NRF_GPIO_PIN_MAP 0 12.
Definition SPI_CLK_PIN : Z := NRF_GPIO_PIN_MAP 0 15.
Definition FPGA_RESET_PIN : Z := NRF_GPIO_PIN_MAP 0 20.
Definition FPGA_DONE_PIN : Z := NRF_GPIO_PIN_MAP 0 16.

Definition PMIC_SDA_PIN : Z := NRF_GPIO_PIN_MAP 0 14.
Definition PMIC_SCL_PIN : Z := NRF_GPIO_PIN_MAP 0 17.
Definition PMIC_I2C_ADDRESS : Z := 0x48.

(** The four pins of an SPI configuration ([nrfx_spim_config_t]).  Its
    other fields keep the values of the SDK's [NRFX_SPIM_DEFAULT_CONFIG],
    which [s1.c] never changes, and are not followed. *)
Record nrfx_spim_config_t : Type := {
  sck_pin : Z;
  mosi_pin : Z;
  miso_pin : Z;
  ss_pin : Z
}.

(** What leaves the microcontroller, in program order. *)
Inductive event : Type :=
  | TWIM_TX (addr : Z) (tx : list Z)
  | TWIM_TXRX (addr : Z) (tx : list Z) (rx_len : nat)
  | SPIM_INIT (config : nrfx_spim_config_t)
  | SPIM_TRX (tx : list Z) (rx_len : nat)
  | DELAY_US (us : Z).

(** The hardware: what the PMIC answers to a register read, and the
    [i]-th byte the flash shifts out during a transfer, given all the
    traffic before it (most recent event first). *)
Record hardware : Type := {
  pmic_answer : list event -> Z -> Z;
  flash_answer : list event -> list Z -> nat -> Z
}.

Definition u8 (z : Z) : Z := z mod 256.

(** A computation sees the traffic so far (most recent event first) and
    returns its value with the events it issued, in program order, or
    [None] when its behaviour is undefined. *)
Definition M (A : Type) : Type := list event -> option (A * list event).

Definition ret {A} (a : A) : M A := fun _ => Some (a, []).

Definition bind {A B} (m : M A) (f : A -> M B) : M B :=
  fun h =>
    match m h with
    | Some (a, t1) =>
        match f a (rev_append t1 h) with
        | Some (b, t2) => Some (b, t1 ++ t2)
        | None => None
        end
    | None => None
    end.

Definition emit (e : event) : M unit := fun _ => Some (tt, [e]).

Definition undefined {A} : M A := fun _ => None.

Definition lift {A} (o : option A) : M A :=
  match o with
  | Some a => ret a
  | None => undefined
  end.

(** C's [a && b]: [b] is evaluated only when [a] holds. *)
Definition and_then (a : bool) (b : M bool) : M bool :=
  if a then b else ret false.

Notation "x <- m ;; k" := (bind m (fun x => k))
  (at level 61, m at next level, right associativity).
Notation "m ;;; k" := (bind m (fun _ => k))
  (at level 61, right associativity).

(** ** The functions of s1.c *)

Section Firmware.

Variable hw : hardware.

(** *** The vendor SDK, as [s1.c] uses it *)

(** Modelled from the spec: [APP_ERROR_CHECK] is a macro of the vendor SDK
    and not part of [s1.c].  Following section 7 of the specification a
    transfer either succeeds or the failure is fatal: the macro returns
    only when the transfer has succeeded, and the model holds those runs. *)
Definition APP_ERROR_CHECK {A} (xfer : M A) : M A := xfer.

(** [nrfx_twim_xfer] with [NRFX_TWIM_XFER_DESC_TX]: a write of [tx]. *)
Definition nrfx_twim_xfer_tx (address : Z) (tx : list Z) : M unit :=
  emit (TWIM_TX address tx).

(** [nrfx_twim_xfer] with [NRFX_TWIM_XFER_DESC_TXRX]: the register number
    is written and one byte is read back. *)
Definition nrfx_twim_xfer_txrx (address reg : Z) : M Z :=
  fun h => Some (u8 (pmic_answer hw h reg), [TWIM_TXRX address [reg] 1]).

(** [nrfx_spim_init] with the configuration passed to it; [s1.c] ignores
    its result. *)
Definition nrfx_spim_init (config : nrfx_spim_config_t) : M unit :=
  emit (SPIM_INIT config).

(** [rx_buffer] holds [rx_init] before the transfer; the first [rx_len]
    bytes are overwritten by what the flash answers. *)
Definition rx_fill (rx_init : list Z) (answer : nat -> Z) (rx_len : nat) : list Z :=
  map (fun i => u8 (answer i)) (seq 0 rx_len) ++ skipn rx_len rx_init.

(** [nrfx_spim_xfer] with [NRFX_SPIM_XFER_TRX]: [tx] is shifted out and
    [rx_len] bytes are received. *)
Definition nrfx_spim_xfer (tx rx_buffer : list Z) (rx_len : nat) : M (list Z) :=
  fun h => Some (rx_fill rx_buffer (flash_answer hw h tx) rx_len,
                 [SPIM_TRX tx rx_len]).

Definition NRFX_DELAY_US (us : Z) : M unit := emit (DELAY_US us).

(** *** s1.c; [LOG] only prints and is left out *)

Definition pmic_read_reg (reg : Z) : M Z :=
  APP_ERROR_CHECK (nrfx_twim_xfer_txrx PMIC_I2C_ADDRESS reg).

Definition pmic_write_reg (reg value : Z) : M unit :=
  APP_ERROR_CHECK (nrfx_twim_xfer_tx 0x48 [reg; value]).

Definition flash_tx_rx (tx_buffer : list Z) (tx_len : nat)
                       (rx_buffer : list Z) (rx_len : nat) : M (list Z) :=
  let spi_config :=
    {| mosi_pin := SPI_SO_PIN;
       miso_pin := SPI_SI_PIN;
       sck_pin := SPI_CLK_PIN;
       ss_pin := SPI_CS_PIN |} in
  nrfx_spim_init spi_config ;;;
  APP_ERROR_CHECK (nrfx_spim_xfer (firstn tx_len tx_buffer) rx_buffer rx_len).

Definition s1_pmic_set_vaux (voltage : spec_float) : M s1_error_t :=
  let v := double_of_float voltage in
  if dlt v (dlit 8 10) || dgt v (dlit 55 10) then ret S1_INVALID_SETTING
  else
    lsw <- and_then (dgt v (dlit 346 100))
             (mode <- pmic_read_reg 0x39 ;; ret (negb (Z.land mode 0x08 =? 0))) ;;
    if lsw then ret S1_INVALID_SETTING
    else if deq v (S754_zero false) then
      pmic_write_reg 0x2E 0x0C ;;;
      ret S1_SUCCESS
    else
      voltage_setting <- lift (to_uint8 (ddiv (dsub v (dlit 8 10)) (dlit 5 100))) ;;
      pmic_write_reg 0x2D voltage_setting ;;;
      pmic_write_reg 0x2E 0x0E ;;;
      ret S1_SUCCESS.

Definition s1_pmic_set_vio (voltage : spec_float) : M s1_error_t :=
  let v := double_of_float voltage in
  if dlt v (dlit 8 10) || dgt v (dlit 346 100) then ret S1_INVALID_SETTING
  else if deq v (S754_zero false) then
    pmic_write_reg 0x39 0x0C ;;;
    ret S1_SUCCESS
  else
    voltage_setting <- lift (to_uint8 (ddiv (dsub v (dlit 8 10)) (dlit 25 1000))) ;;
    pmic_write_reg 0x38 voltage_setting ;;;
    pmic_write_reg 0x39 0x0E ;;;
    ret S1_SUCCESS.

Definition s1_pimc_fpga_vcore (enable : bool) : M unit :=
  pmic_write_reg 0x2B 0x08 ;;;
  if enable then
    pmic_write_reg 0x2C 0x7E
  else
    pmic_write_reg 0x39 0x0C ;;;
    pmic_write_reg 0x2C 0x7C.

Definition s1_flash_wakeup : M s1_error_t :=
  let wake_seq := [0xAB; 0; 0; 0] in
  flash_tx_rx wake_seq 4 [] 0 ;;;
  NRFX_DELAY_US 3 ;;;
  let reset_seq := [0x66; 0x99; 0] in
  flash_tx_rx reset_seq 1 [] 0 ;;;
  flash_tx_rx (skipn 1 reset_seq) 1 [] 0 ;;;
  NRFX_DELAY_US 30 ;;;
  let cap_id_reg := [0x9F] in
  let cap_id_res := [0; 0; 0; 0] in
  cap_id_res <- flash_tx_rx cap_id_reg 1 cap_id_res 4 ;;
  if negb (nth 3 cap_id_res 0 =? 0x16) then ret S1_FLASH_ERROR
  else ret S1_SUCCESS.

Definition s1_flash_erase_all : M unit :=
  let erase_seq := [0x06; 0x60] in
  flash_tx_rx erase_seq 1 [] 0 ;;;
  flash_tx_rx (skipn 1 erase_seq) 1 [] 0 ;;;
  ret tt.

Definition s1_flash_is_busy : M bool :=
  let status_reg := [0x05] in
  let status_res := [0; 0] in
  status_res <- flash_tx_rx status_reg 1 status_res 2 ;;
  if Z.land (nth 1 status_res 0) 0x01 =? 0 then ret false
  else ret true.

End Firmware.

(** ** Reading a trace *)

Definition reg_write (reg value : Z) : event := TWIM_TX 0x48 [reg; value].
Definition reg_read (reg : Z) : event := TWIM_TXRX 0x48 [reg] 1.

(** The configuration of the SPI peripheral that precedes every transfer:
    clock on pin 15, data out on pin 11, data in on pin 8, select on
    pin 12. *)
Definition spi_setup : event :=
  SPIM_INIT {| sck_pin := 15; mosi_pin := 11; miso_pin := 8; ss_pin := 12 |}.

Definition is_reg_write (e : event) : bool :=
  match e with TWIM_TX _ _ => true | _ => false end.

Definition writes_reg (reg : Z) (e : event) : bool :=
  match e with TWIM_TX _ (r :: _) => r =? reg | _ => false end.

Definition is_spim_trx (e : event) : bool :=
  match e with SPIM_TRX _ _ => true | _ => false end.

Definition is_spim_init (e : event) : bool :=
  match e with SPIM_INIT _ => true | _ => false end.

(** The register writes of a trace. *)
Definition reg_writes (t : list event) : list event := filter is_reg_write t.

(** The SPI transactions of a trace. *)
Definition spi_transactions (t : list event) : list event := filter is_spim_trx t.

(** A trace without the (re-)configuration of the SPI peripheral. *)
Definition bus_activity (t : list event) : list event :=
  filter (fun e => negb (is_spim_init e)) t.

(** [a] is issued strictly before [b] in [t]. *)
Definition issued_before (a b : event) (t : list event) : Prop :=
  exists t1 t2 t3, t = t1 ++ a :: t2 ++ b :: t3.

(** ** The DAC code as the specification words it *)

Definition signed (s : bool) (m : positive) : Z := if s then Zneg m else Zpos m.

(** The exact value of a finite floating-point number, [m * 2 ^ e] with
    its sign; 0 for the other values. *)
Definition F2Q (x : spec_float) : Q :=
  match x with
  | S754_finite s m e =>
      let sm := signed s m in
      match e with
      | Zneg k => Qmake sm (2 ^ k)%positive
      | _ => inject_Z (sm * 2 ^ e)
      end
  | _ => 0
  end.

(** Zeros and finite numbers, the values that have an exact value. *)
Definition is_finite (x : spec_float) : bool :=
  match x with
  | S754_zero _ | S754_finite _ _ _ => true
  | _ => false
  end.

Definition round_nearest (q : Q) : Z := Qfloor (q + (1 # 2)).

Definition clamp8 (z : Z) : Z := Z.max 0 (Z.min 255 z).

(** [round((v - 0.8) / step)] clamped to 8 bits, in exact arithmetic. *)
Definition spec_dac_code (step : Q) (v : spec_float) : Z :=
  clamp8 (round_nearest ((F2Q v - (8 # 10)) / step)).

(** The same with the quotient computed in double precision. *)
Definition spec_dac_code_double (step v : spec_float) : Z :=
  clamp8 (round_nearest (F2Q (ddiv (dsub (double_of_float v) (dlit 8 10)) step))).

(** ** Sample hardware *)

(** A PMIC whose registers all read [mode] and a flash that answers every
    transfer with the bytes of [rx]. *)
Definition fixed_hardware (mode : Z) (rx : list Z) : hardware :=
  {| pmic_answer := fun _ _ => mode;
     flash_answer := fun _ _ i => nth i rx 0 |}.

(** LDO0 in regulator mode, a 32 Mbit flash that is idle. *)
Definition hw_regulator : hardware := fixed_hardware 0x00 [0; 0; 0; 0x16].

(** LDO0 in load-switch mode, a flash that is busy. *)
Definition hw_load_switch : hardware := fixed_hardware 0x08 [0; 0x03].

(** ** The rest of s1.c: the reset pin and initialisation *)

Inductive nrf_gpio_pin_pull_t : Type :=
  | NRF_GPIO_PIN_NOPULL
  | NRF_GPIO_PIN_PULLDOWN
  | NRF_GPIO_PIN_PULLUP.

(** What the microcontroller does, bus traffic and the rest, in program
    order. *)
Inductive sys_event : Type :=
  | BUS (e : event)
  | GPIO_CFG_OUTPUT (pin : Z)
  | GPIO_CFG_INPUT (pin : Z) (pull : nrf_gpio_pin_pull_t)
  | GPIO_PIN_CLEAR (pin : Z)
  | TWIM_INIT (scl sda : Z)
  | TWIM_ENABLE.

(** The bus traffic among the events of the system. *)
Fixpoint bus_of (t : list sys_event) : list event :=
  match t with
  | [] => []
  | BUS e :: t' => e :: bus_of t'
  | _ :: t' => bus_of t'
  end.

(** Computations over the events of the system; as for [M], the history
    runs from the most recent event and the events issued are in program
    order. *)
Definition S (A : Type) : Type := list sys_event -> option (A * list sys_event).

Definition sret {A} (a : A) : S A := fun _ => Some (a, []).

Definition sbind {A B} (m : S A) (f : A -> S B) : S B :=
  fun h =>
    match m h with
    | Some (a, t1) =>
        match f a (rev_append t1 h) with
        | Some (b, t2) => Some (b, t1 ++ t2)
        | None => None
        end
    | None => None
    end.

Definition semit (e : sys_event) : S unit := fun _ => Some (tt, [e]).

(** A bus computation within the system: the devices on the bus see the
    bus traffic only. *)
Definition on_bus {A} (m : M A) : S A :=
  fun h =>
    match m (bus_of h) with
    | Some (a, t) => Some (a, map BUS t)
    | None => None
    end.

Definition nrf_gpio_cfg_output (pin : Z) : S unit := semit (GPIO_CFG_OUTPUT pin).
Definition nrf_gpio_cfg_input (pin : Z) (pull : nrf_gpio_pin_pull_t) : S unit :=
  semit (GPIO_CFG_INPUT pin pull).
Definition nrf_gpio_pin_clear (pin : Z) : S unit := semit (GPIO_PIN_CLEAR pin).

(** [nrfx_twim_init] with the two pins [s1_init] sets in the default
    configuration, under [APP_ERROR_CHECK]. *)
Definition nrfx_twim_init (scl sda : Z) : S unit := semit (TWIM_INIT scl sda).
Definition nrfx_twim_enable : S unit := semit TWIM_ENABLE.

Definition s1_fpga_hold_reset : S unit :=
  nrf_gpio_pin_clear FPGA_RESET_PIN.

Definition s1_init (hw : hardware) : S s1_error_t :=
  sbind (nrf_gpio_cfg_output FPGA_RESET_PIN) (fun _ =>
  sbind (nrf_gpio_cfg_input FPGA_DONE_PIN NRF_GPIO_PIN_PULLUP) (fun _ =>
  sbind (nrfx_twim_init PMIC_SCL_PIN PMIC_SDA_PIN) (fun _ =>
  sbind nrfx_twim_enable (fun _ =>
  sbind (on_bus (pmic_read_reg hw 0x14)) (fun id =>
  if negb (id =? 0x7A) then sret S1_PMIC_ERROR
  else sret S1_SUCCESS))))).

(** ** An application driving the module *)

(** The calls an application can make: the public functions of [s1.c]. *)
Inductive s1_call : Type :=
  | S1_INIT
  | SET_VAUX (voltage : spec_float)
  | SET_VIO (voltage : spec_float)
  | FPGA_VCORE (enable : bool)
  | FLASH_WAKEUP
  | FLASH_ERASE_ALL
  | FLASH_IS_BUSY
  | FPGA_HOLD_RESET.

(** One call, its result dropped. *)
Definition do_call (hw : hardware) (c : s1_call) : S unit :=
  match c with
  | S1_INIT => sbind (s1_init hw) (fun _ => sret tt)
  | SET_VAUX v => sbind (on_bus (s1_pmic_set_vaux hw v)) (fun _ => sret tt)
  | SET_VIO v => sbind (on_bus (s1_pmic_set_vio v)) (fun _ => sret tt)
  | FPGA_VCORE b => on_bus (s1_pimc_fpga_vcore b)
  | FLASH_WAKEUP => sbind (on_bus (s1_flash_wakeup hw)) (fun _ => sret tt)
  | FLASH_ERASE_ALL => on_bus (s1_flash_erase_all hw)
  | FLASH_IS_BUSY => sbind (on_bus (s1_flash_is_busy hw)) (fun _ => sret tt)
  | FPGA_HOLD_RESET => s1_fpga_hold_reset
  end.

(** A sequence of calls, one after the other. *)
Fixpoint do_calls (hw : hardware) (cs : list s1_call) : S unit :=
  match cs with
  | [] => sret tt
  | c :: cs' => sbind (do_call hw c) (fun _ => do_calls hw cs')
  end.

(** The calls whose voltage argument is a [float]. *)
Definition float_call (c : s1_call) : bool :=
  match c with
  | SET_VAUX v | SET_VIO v => is_float v
  | _ => true
  end.

(** The register accesses the power controller can issue: the read of the
    chip identification 0x14, the read of the mode register 0x39, the core
    voltage code 0x08, the core control values
    0x7E and 0x7C, the I/O control values 0x0C and 0x0E, an I/O code of at
    most 106, an auxiliary code of at most 94 and the auxiliary control
    value 0x0E. *)
Definition pmic_access_ok (e : event) : bool :=
  match e with
  | TWIM_TXRX addr [reg] 1 => (addr =? 0x48) && ((reg =? 0x14) || (reg =? 0x39))
  | TWIM_TX addr [reg; value] =>
      (addr =? 0x48)
      && (((reg =? 0x2B) && (value =? 0x08))
          || ((reg =? 0x2C) && ((value =? 0x7E) || (value =? 0x7C)))
          || ((reg =? 0x39) && ((value =? 0x0C) || (value =? 0x0E)))
          || ((reg =? 0x38) && (0 <=? value) && (value <=? 106))
          || ((reg =? 0x2D) && (0 <=? value) && (value <=? 94))
          || ((reg =? 0x2E) && (value =? 0x0E)))
  | TWIM_TX _ _ | TWIM_TXRX _ _ _ => false
  | _ => true
  end.

(** Along the SPI transactions, the erase opcode 0x60 comes directly after
    the write-enable opcode 0x06; [prev] is the transaction before. *)
Fixpoint erase_guarded (prev : option event) (t : list event) : bool :=
  match t with
  | [] => true
  | e :: t' =>
      match e with
      | SPIM_TRX tx _ =>
          (match tx with
           | [0x60] =>
               match prev with
               | Some (SPIM_TRX [0x06] 0) => true
               | _ => false
               end
           | _ => true
           end)
          && erase_guarded (Some e) t'
      | _ => erase_guarded prev t'
      end
  end.

(** Along a trace, each SPI transfer comes directly after a configuration
    of the SPI peripheral. *)
Fixpoint init_before_trx (t : list event) : bool :=
  match t with
  | SPIM_INIT _ :: SPIM_TRX _ _ :: t' => init_before_trx t'
  | SPIM_TRX _ _ :: _ => false
  | SPIM_INIT _ :: _ => false
  | _ :: t' => init_before_trx t'
  | [] => true
  end.

(** The I2C payload that disables the core rail, and the I2C write that
    shuts the I/O rail down. *)
Definition is_core_off (tx : list Z) : bool :=
  match tx with
  | [reg; value] => (reg =? 0x2C) && (value =? 0x7C)
  | _ => false
  end.

Definition is_io_shutdown (e : option event) : bool :=
  match e with
  | Some (TWIM_TX addr [reg; value]) =>
      (addr =? 0x48) && (reg =? 0x39) && (value =? 0x0C)
  | _ => false
  end.

(** Along a trace, the write that disables the core rail comes directly
    after the write that shuts the I/O rail down; [prev] is the I2C write
    before. *)
Fixpoint core_off_guarded (prev : option event) (t : list event) : bool :=
  match t with
  | [] => true
  | e :: t' =>
      match e with
      | TWIM_TX _ tx =>
          (if is_core_off tx then is_io_shutdown prev else true)
          && core_off_guarded (Some e) t'
      | _ => core_off_guarded prev t'
      end
  end.

(** The pins of an SPI configuration are those of the flash: clock 15,
    data out 11, data in 8, select 12. *)
Definition spi_pins_ok (e : event) : bool :=
  match e with
  | SPIM_INIT c =>
      (sck_pin c =? 15) && (mosi_pin c =? 11) && (miso_pin c =? 8) && (ss_pin c =? 12)
  | _ => true
  end.

(** Each pin in the one role it has on the module: pin 20 an output that
    is driven low, pin 16 an input with pull-up, pins 17 and 14 the clock
    and data of the I2C peripheral, and the four pins of the flash for the
    SPI peripheral. *)
Definition pin_use_ok (e : sys_event) : bool :=
  match e with
  | BUS b => spi_pins_ok b
  | GPIO_CFG_OUTPUT pin => pin =? 20
  | GPIO_CFG_INPUT pin NRF_GPIO_PIN_PULLUP => pin =? 16
  | GPIO_CFG_INPUT _ _ => false
  | GPIO_PIN_CLEAR pin => pin =? 20
  | TWIM_INIT scl sda => (scl =? 17) && (sda =? 14)
  | TWIM_ENABLE => true
  end.

(** The configuration of the GPIO pins and of the I2C peripheral. *)
Definition is_setup (e : sys_event) : bool :=
  match e with
  | GPIO_CFG_OUTPUT _ | GPIO_CFG_INPUT _ _ | TWIM_INIT _ _ | TWIM_ENABLE => true
  | BUS _ | GPIO_PIN_CLEAR _ => false
  end.

(** The configuration that one call issues: that of [s1_init], and none
    for the other functions. *)
Definition setup_of (c : s1_call) : list sys_event :=
  match c with
  | S1_INIT =>
      [GPIO_CFG_OUTPUT 20; GPIO_CFG_INPUT 16 NRF_GPIO_PIN_PULLUP;
       TWIM_INIT 17 14; TWIM_ENABLE]
  | _ => []
  end.

(** What one call leaves on the bus, in the respects followed for
    sequences of calls: the PMIC accesses, the pairing of SPI configuration
    and transfer, the guard of the erase opcode, the guard of the core
    rail and the pins of the SPI configuration. *)
Definition call_block (tb : list event) : Prop :=
  forallb pmic_access_ok tb = true
  /\ (forall rest, init_before_trx (tb ++ rest) = init_before_trx rest)
  /\ (forall p rest, (forall p', erase_guarded p' rest = true) ->
        erase_guarded p (spi_transactions tb ++ rest) = true)
  /\ (forall p rest, (forall p', core_off_guarded p' rest = true) ->
        core_off_guarded p (tb ++ rest) = true)
  /\ forallb spi_pins_ok tb = true.

(** A session of an application: initialisation, power up, flash
    bring-up and erase, a poll, power down. *)
Definition sample_session : list s1_call :=
  [S1_INIT; FPGA_VCORE true; SET_VIO (flit 33 10); SET_VAUX (flit 4 1);
   FLASH_WAKEUP; FLASH_ERASE_ALL; FLASH_IS_BUSY;
   FPGA_HOLD_RESET; SET_VAUX (flit 6 1); FPGA_VCORE false].

(** * Properties *)

(** ** Binary64 rounding in the normal range *)

Module Rounding.

Lemma pow2_pos (n : Z) : 0 <= n -> 0 < 2 ^ n.
Proof. intros; apply Z.pow_pos_nonneg; lia. Qed.

Lemma pow2_step (n : Z) : 0 < n -> 2 ^ n = 2 * 2 ^ (n - 1).
Proof.
  intros. replace n with (Z.succ (n - 1)) at 1 by lia.
  apply Z.pow_succ_r; lia.
Qed.

Lemma digits2_pos_bounds (p : positive) :
  2 ^ (Zpos (digits2_pos p) - 1) <= Zpos p < 2 ^ Zpos (digits2_pos p).
Proof.
  induction p as [p IH | p IH | ]; cbn [digits2_pos].
  - rewrite Pos2Z.inj_succ, (Pos2Z.inj_xI p).
    replace (Z.succ (Zpos (digits2_pos p)) - 1) with (Zpos (digits2_pos p)) by lia.
    rewrite (pow2_step (Z.succ _)) by lia.
    replace (Z.succ (Zpos (digits2_pos p)) - 1) with (Zpos (digits2_pos p)) by lia.
    rewrite (pow2_step (Zpos (digits2_pos p))) in * by lia.
    generalize dependent (2 ^ (Zpos (digits2_pos p) - 1)). intros; lia.
  - rewrite Pos2Z.inj_succ, (Pos2Z.inj_xO p).
    replace (Z.succ (Zpos (digits2_pos p)) - 1) with (Zpos (digits2_pos p)) by lia.
    rewrite (pow2_step (Z.succ _)) by lia.
    replace (Z.succ (Zpos (digits2_pos p)) - 1) with (Zpos (digits2_pos p)) by lia.
    rewrite (pow2_step (Zpos (digits2_pos p))) in * by lia.
    generalize dependent (2 ^ (Zpos (digits2_pos p) - 1)). intros; lia.
  - cbn. lia.
Qed.

Lemma digits2_pos_unique (p : positive) (k : Z) :
  2 ^ (k - 1) <= Zpos p < 2 ^ k -> Zpos (digits2_pos p) = k.
Proof.
  intros [Hl Hu]. pose proof (digits2_pos_bounds p) as [Bl Bu].
  assert (0 < k).
  { destruct (Z_lt_le_dec 0 k) as [|Hk]; [assumption|].
    assert (2 ^ k <= 2 ^ 0) by (destruct (Z.eq_dec k 0); [subst; lia| rewrite Z.pow_neg_r by lia; cbn; lia]).
    change (2 ^ 0) with 1 in *. lia. }
  destruct (Z.lt_trichotomy (Zpos (digits2_pos p)) k) as [Hlt | [Heq | Hgt]]; [ | assumption | ].
  - assert (2 ^ Zpos (digits2_pos p) <= 2 ^ (k - 1)) by (apply Z.pow_le_mono_r; lia). lia.
  - assert (2 ^ k <= 2 ^ (Zpos (digits2_pos p) - 1)) by (apply Z.pow_le_mono_r; lia). lia.
Qed.

Lemma shr_1_m (r : shr_record) :
  0 <= shr_m r -> shr_m (shr_1 r) = shr_m r / 2.
Proof.
  destruct r as [m r s]; cbn [shr_m]. intros Hm.
  destruct m as [ | [p | p | ] | p ]; cbn [shr_1 shr_m]; try lia.
  - reflexivity.
  - rewrite (Pos2Z.inj_xI p). apply Z.div_unique with (r := 1); lia.
  - rewrite (Pos2Z.inj_xO p). apply Z.div_unique with (r := 0); lia.
  - reflexivity.
Qed.

Lemma iter_shr_1_m (p : positive) : forall r : shr_record,
  0 <= shr_m r -> shr_m (iter_pos shr_1 p r) = shr_m r / 2 ^ Zpos p.
Proof.
  induction p as [p IH | p IH | ]; intros r Hr; cbn [iter_pos].
  - assert (H1 : 0 <= shr_m (shr_1 r)) by (rewrite shr_1_m by assumption; apply Z.div_pos; lia).
    assert (H2 : 0 <= shr_m (iter_pos shr_1 p (shr_1 r))).
    { rewrite IH by assumption. apply Z.div_pos; [assumption | apply pow2_pos; lia]. }
    rewrite IH, IH, shr_1_m by assumption.
    rewrite !Z.div_div by (try apply pow2_pos; lia).
    f_equal. rewrite (Pos2Z.inj_xI p).
    replace (2 * Zpos p + 1) with (1 + Zpos p + Zpos p) by lia.
    rewrite !Z.pow_add_r by lia. change (2 ^ 1) with 2. ring.
  - assert (H2 : 0 <= shr_m (iter_pos shr_1 p r)).
    { rewrite IH by assumption. apply Z.div_pos; [assumption | apply pow2_pos; lia]. }
    rewrite IH, IH by assumption.
    rewrite !Z.div_div by (try apply pow2_pos; lia).
    f_equal. rewrite (Pos2Z.inj_xO p).
    replace (2 * Zpos p) with (Zpos p + Zpos p) by lia.
    rewrite !Z.pow_add_r by lia. change (2 ^ 1) with 2. ring.
  - rewrite shr_1_m by assumption. reflexivity.
Qed.

Lemma shr_m_of_loc (m : Z) (l : location) : shr_m (shr_record_of_loc m l) = m.
Proof. destruct l as [ | [ | | ]]; reflexivity. Qed.

Lemma shr_spec (r : shr_record) (e n : Z) :
  0 <= shr_m r -> 0 <= n ->
  shr r e n = (fst (shr r e n), e + n) /\ shr_m (fst (shr r e n)) = shr_m r / 2 ^ n.
Proof.
  intros Hr Hn. destruct n as [ | p | p ]; cbn [shr fst]; try lia.
  - rewrite Z.add_0_r, Z.div_1_r. split; reflexivity.
  - split; [reflexivity | apply iter_shr_1_m; assumption].
Qed.

Lemma round_nearest_even_bounds (m : Z) (l : location) :
  m <= round_nearest_even m l <= m + 1.
Proof.
  destruct l as [ | [ | | ]]; cbn [round_nearest_even]; try lia.
  destruct (Z.even m); lia.
Qed.

Lemma fexp64 (x : Z) : fexp 53 1024 x = Z.max (x - 53) (-1074).
Proof. reflexivity. Qed.

Lemma Zdigits2_bounds (m : Z) :
  0 < m -> 2 ^ (Zdigits2 m - 1) <= m < 2 ^ Zdigits2 m.
Proof.
  destruct m as [ | p | p ]; try lia. intros _. apply digits2_pos_bounds.
Qed.

Lemma Zdigits2_unique (m k : Z) :
  0 < m -> 2 ^ (k - 1) <= m < 2 ^ k -> Zdigits2 m = k.
Proof.
  destruct m as [ | p | p ]; try lia. intros _. apply digits2_pos_unique.
Qed.

Lemma shr_fexp_normal (m e : Z) (l : location) :
  0 < m -> 53 <= Zdigits2 m -> -1074 <= e ->
  exists r, shr_fexp 53 1024 m e l = (r, e + Zdigits2 m - 53)
            /\ shr_m r = m / 2 ^ (Zdigits2 m - 53).
Proof.
  intros Hm Hd He. unfold shr_fexp. rewrite fexp64.
  replace (Z.max (Zdigits2 m + e - 53) (-1074) - e) with (Zdigits2 m - 53) by lia.
  destruct (shr_spec (shr_record_of_loc m l) e (Zdigits2 m - 53)) as [E1 E2].
  - rewrite shr_m_of_loc; lia.
  - lia.
  - eexists; split.
    + rewrite E1. f_equal. lia.
    + rewrite E2, shr_m_of_loc. reflexivity.
Qed.

Lemma div_pow2_normal (m d : Z) :
  53 <= d -> 2 ^ (d - 1) <= m < 2 ^ d ->
  2 ^ 52 <= m / 2 ^ (d - 53) < 2 ^ 53.
Proof.
  intros Hd [Hl Hu].
  assert (Hp : 0 < 2 ^ (d - 53)) by (apply pow2_pos; lia).
  split.
  - apply Z.div_le_lower_bound; [assumption|].
    rewrite <- Z.pow_add_r by lia. replace (d - 53 + 52) with (d - 1) by lia. assumption.
  - apply Z.div_lt_upper_bound; [assumption|].
    rewrite <- Z.pow_add_r by lia. replace (d - 53 + 53) with d by lia. assumption.
Qed.

(** Rounding a mantissa of exactly 53 digits with nothing behind it. *)
Lemma round_aux_exact (s : bool) (m : positive) (e : Z) :
  Zpos (digits2_pos m) = 53 -> -1074 <= e <= 971 ->
  binary_round_aux 53 1024 s (Zpos m) e loc_Exact = S754_finite s m e.
Proof.
  intros Hd He. unfold binary_round_aux, shr_fexp. cbn [Zdigits2].
  rewrite fexp64, Hd.
  replace (Z.max (53 + e - 53) (-1074) - e) with 0 by lia.
  cbn [shr shr_record_of_loc shr_m loc_of_shr_record round_nearest_even Zdigits2].
  rewrite fexp64, Hd.
  replace (Z.max (53 + e - 53) (-1074) - e) with 0 by lia.
  cbn [shr shr_record_of_loc shr_m].
  replace (e <=? 1024 - 53) with true by (symmetry; apply Z.leb_le; lia).
  reflexivity.
Qed.

(** Rounding in the normal range: the result has a 53-digit mantissa and
    exceeds the value rounded by at most one unit in the last place. *)
Lemma round_aux_normal (s : bool) (mx ex : Z) (lx : location) :
  0 < mx -> 53 <= Zdigits2 mx -> -1074 <= ex -> ex + Zdigits2 mx <= 1023 ->
  exists m e,
    binary_round_aux 53 1024 s mx ex lx = S754_finite s m e
    /\ Zpos (digits2_pos m) = 53
    /\ ex + Zdigits2 mx - 53 <= e <= ex + Zdigits2 mx - 52
    /\ Zpos m * 2 ^ (e - ex) <= mx + 2 ^ (Zdigits2 mx - 53).
Proof.
  intros Hm Hd He Ho. unfold binary_round_aux.
  destruct (shr_fexp_normal mx ex lx Hm Hd He) as (r & -> & Hr).
  pose proof (div_pow2_normal mx (Zdigits2 mx) Hd (Zdigits2_bounds mx Hm)) as Hb.
  rewrite <- Hr in Hb.
  pose proof (round_nearest_even_bounds (shr_m r) (loc_of_shr_record r)) as Hn.
  set (m1 := round_nearest_even (shr_m r) (loc_of_shr_record r)) in *.
  set (k := Zdigits2 mx - 53) in *.
  assert (Hk : 0 < 2 ^ k) by (apply pow2_pos; lia).
  assert (Hmul : shr_m r * 2 ^ k <= mx).
  { rewrite Hr, Z.mul_comm. apply Z.mul_div_le. assumption. }
  destruct (Z_lt_le_dec m1 (2 ^ 53)) as [Hlt | Hge].
  - assert (D1 : Zdigits2 m1 = 53) by (apply Zdigits2_unique; change (53 - 1) with 52; lia).
    unfold shr_fexp. rewrite fexp64, D1.
    replace (Z.max (53 + (ex + Zdigits2 mx - 53) - 53) (-1074) - (ex + Zdigits2 mx - 53)) with 0 by lia.
    cbn [shr shr_record_of_loc shr_m].
    destruct m1 as [ | q | q ] eqn:Em1; try lia.
    replace (ex + Zdigits2 mx - 53 <=? 1024 - 53) with true by (symmetry; apply Z.leb_le; lia).
    exists q, (ex + Zdigits2 mx - 53). repeat split; try lia.
    + exact D1.
    + replace (ex + Zdigits2 mx - 53 - ex) with k by lia. nia.
  - assert (Em : m1 = 2 ^ 53) by lia.
    assert (D1 : Zdigits2 m1 = 54).
    { apply Zdigits2_unique; [lia|]. rewrite Em. change (54 - 1) with 53. split; [lia|]. reflexivity. }
    unfold shr_fexp. rewrite fexp64, D1.
    replace (Z.max (54 + (ex + Zdigits2 mx - 53) - 53) (-1074) - (ex + Zdigits2 mx - 53)) with 1 by lia.
    rewrite Em. cbn [shr shr_record_of_loc iter_pos]. 
    change (shr_m (shr_1 {| shr_m := 2 ^ 53; shr_r := false; shr_s := false |})) with (Zpos (Pos.pow 2 52)).
    replace (ex + Zdigits2 mx - 53 + 1 <=? 1024 - 53) with true by (symmetry; apply Z.leb_le; lia).
    exists (Pos.pow 2 52), (ex + Zdigits2 mx - 53 + 1). repeat split; try lia.
    + replace (ex + Zdigits2 mx - 53 + 1 - ex) with (1 + k) by lia.
      rewrite Z.pow_add_r by lia. change (2 ^ 1) with 2.
      change (Zpos (2 ^ 52)) with (2 ^ 52). change (2 ^ 53) with (2 * 2 ^ 52) in Em.
      nia.
Qed.

Lemma iter_xO_Z (k p : positive) : Zpos (Pos.iter xO p k) = Zpos p * 2 ^ Zpos k.
Proof.
  induction k as [ | k IH ] using Pos.peano_ind.
  - cbn [Pos.iter]. rewrite (Pos2Z.inj_xO p). change (2 ^ 1) with 2. lia.
  - rewrite Pos.iter_succ, (Pos2Z.inj_xO (Pos.iter xO p k)), IH, Pos2Z.inj_succ, Z.pow_succ_r by lia.
    ring.
Qed.

Lemma shl_align_spec (m : positive) (ex ex' : Z) :
  ex' <= ex ->
  shl_align m ex ex' = (fst (shl_align m ex ex'), ex')
  /\ Zpos (fst (shl_align m ex ex')) = Zpos m * 2 ^ (ex - ex').
Proof.
  intros H. unfold shl_align. destruct (ex' - ex) as [ | d | d ] eqn:E; try lia; cbn [fst].
  - replace ex' with ex by lia. rewrite Z.sub_diag. split; [reflexivity | cbn; lia].
  - rewrite iter_xO_Z. replace (ex - ex') with (Zpos d) by lia. split; reflexivity.
Qed.

Lemma shl_align_id (m : positive) (ex ex' : Z) :
  ex <= ex' -> shl_align m ex ex' = (m, ex).
Proof.
  intros H. unfold shl_align. destruct (ex' - ex) as [ | d | d ] eqn:E; try lia; reflexivity.
Qed.

Lemma digits2_pos_shift (m m' : positive) (k : Z) :
  0 <= k -> Zpos m' = Zpos m * 2 ^ k ->
  Zpos (digits2_pos m') = Zpos (digits2_pos m) + k.
Proof.
  intros Hk E. apply digits2_pos_unique. rewrite E.
  pose proof (digits2_pos_bounds m) as [Bl Bu].
  assert (0 < 2 ^ k) by (apply pow2_pos; lia).
  replace (Zpos (digits2_pos m) + k - 1) with (Zpos (digits2_pos m) - 1 + k) by lia.
  rewrite !Z.pow_add_r by lia. nia.
Qed.

(** Rounding a value that fits the format only re-aligns its mantissa. *)
Lemma binary_round_small (s : bool) (p : positive) (ex : Z) :
  Zpos (digits2_pos p) <= 53 ->
  -1074 <= ex + Zpos (digits2_pos p) - 53 <= 971 ->
  exists m,
    binary_round 53 1024 s p ex = S754_finite s m (ex + Zpos (digits2_pos p) - 53)
    /\ Zpos m = Zpos p * 2 ^ (53 - Zpos (digits2_pos p))
    /\ Zpos (digits2_pos m) = 53.
Proof.
  intros Hd He. unfold binary_round. rewrite fexp64.
  replace (Z.max (Zpos (digits2_pos p) + ex - 53) (-1074)) with (ex + Zpos (digits2_pos p) - 53) by lia.
  destruct (shl_align_spec p ex (ex + Zpos (digits2_pos p) - 53)) as [E1 E2]; [lia|].
  rewrite E1. set (m := fst (shl_align p ex (ex + Zpos (digits2_pos p) - 53))) in *.
  replace (ex - (ex + Zpos (digits2_pos p) - 53)) with (53 - Zpos (digits2_pos p)) in E2 by lia.
  assert (Dm : Zpos (digits2_pos m) = 53).
  { rewrite (digits2_pos_shift p m (53 - Zpos (digits2_pos p))); [lia | lia | exact E2]. }
  exists m. rewrite round_aux_exact by (assumption || lia). auto.
Qed.

(** Rounding in the normal range, whatever the length of the mantissa:
    scaled to the common exponent [lo], the result exceeds the value
    rounded by at most one unit in the last place. *)
Lemma binary_round_normal (s : bool) (p : positive) (ex : Z) :
  -1074 <= ex -> -1074 <= ex + Zpos (digits2_pos p) - 53 ->
  ex + Zpos (digits2_pos p) <= 1023 ->
  let b := ex + Zpos (digits2_pos p) - 53 in
  let lo := Z.min ex b in
  exists m e,
    binary_round 53 1024 s p ex = S754_finite s m e
    /\ Zpos (digits2_pos m) = 53
    /\ b <= e <= b + 1
    /\ Zpos m * 2 ^ (e - lo) <= Zpos p * 2 ^ (ex - lo) + 2 ^ (b - lo).
Proof.
  intros He Hb Ho b lo.
  destruct (Z_le_gt_dec (Zpos (digits2_pos p)) 53) as [Hs | Hl].
  - destruct (binary_round_small s p ex Hs) as (m & E & Em & Dm); [lia|].
    exists m, b. rewrite E. repeat split; try lia; try assumption.
    replace lo with b by lia. rewrite Z.sub_diag. change (2 ^ 0) with 1.
    replace (ex - b) with (53 - Zpos (digits2_pos p)) by lia. lia.
  - unfold binary_round. rewrite fexp64, shl_align_id by lia.
    destruct (round_aux_normal s (Zpos p) ex loc_Exact) as (m & e & E & Dm & Be & Bv);
      cbn [Zdigits2]; try lia.
    cbn [Zdigits2] in *.
    exists m, e. rewrite E. repeat split; try lia; try assumption.
    replace lo with ex by lia. rewrite Z.sub_diag. change (2 ^ 0) with 1.
    replace (b - ex) with (Zpos (digits2_pos p) - 53) by lia. lia.
Qed.

Lemma Zdigits2_range (q lo hi : Z) :
  0 < lo -> 2 ^ (lo - 1) <= q < 2 ^ hi -> lo <= Zdigits2 q <= hi.
Proof.
  intros Hlo [Hl Hu].
  assert (Hq : 0 < q) by (pose proof (pow2_pos (lo - 1)); lia).
  pose proof (Zdigits2_bounds q Hq) as [Bl Bu].
  assert (Hd : 0 < Zdigits2 q) by (destruct q; cbn; lia).
  split.
  - destruct (Z_le_gt_dec lo (Zdigits2 q)); [assumption|].
    assert (2 ^ Zdigits2 q <= 2 ^ (lo - 1)) by (apply Z.pow_le_mono_r; lia). lia.
  - destruct (Z_le_gt_dec (Zdigits2 q) hi); [assumption|].
    assert (2 ^ hi <= 2 ^ (Zdigits2 q - 1)) by (apply Z.pow_le_mono_r; lia). lia.
Qed.

(** Division of two normal numbers: the quotient is normal, and exceeds
    the exact quotient by at most two units of its lowest exponent. *)
Lemma SFdiv_normal (sx sy : bool) (mx my : positive) (ex ey : Z) :
  Zpos (digits2_pos mx) = 53 -> Zpos (digits2_pos my) = 53 ->
  -1074 <= ex - ey - 53 -> ex - ey <= 1020 ->
  exists m e,
    SFdiv 53 1024 (S754_finite sx mx ex) (S754_finite sy my ey)
      = S754_finite (xorb sx sy) m e
    /\ Zpos (digits2_pos m) = 53
    /\ ex - ey - 53 <= e <= ex - ey - 51
    /\ Zpos m * 2 ^ (e - (ex - ey - 53)) * Zpos my <= Zpos mx * 2 ^ 53 + 2 * Zpos my.
Proof.
  intros Dx Dy Hlo Hhi.
  unfold SFdiv, SFdiv_core_binary. cbn [Zdigits2]. rewrite Dx, Dy, fexp64.
  replace (Z.min (Z.max (53 + ex - (53 + ey) - 53) (-1074)) (ex - ey))
    with (ex - ey - 53) by lia.
  replace (ex - ey - (ex - ey - 53)) with 53 by lia.
  rewrite Z.shiftl_mul_pow2 by lia.
  pose proof (digits2_pos_bounds mx) as Bx. pose proof (digits2_pos_bounds my) as By.
  rewrite Dx in Bx. rewrite Dy in By. change (53 - 1) with 52 in *.
  set (n := Zpos mx * 2 ^ 53) in *.
  assert (Hq : Z.div_eucl n (Zpos my) = (n / Zpos my, n mod Zpos my)).
  { unfold Z.div, Z.modulo. destruct (Z.div_eucl n (Zpos my)); reflexivity. }
  rewrite Hq.
  assert (Hn : 2 ^ 105 <= n < 2 ^ 106).
  { unfold n. change (2 ^ 105) with (2 ^ 52 * 2 ^ 53). change (2 ^ 106) with (2 ^ 53 * 2 ^ 53). lia. }
  assert (Bq : 2 ^ 52 <= n / Zpos my < 2 ^ 54).
  { split.
    - apply Z.div_le_lower_bound; [lia|].
      change (2 ^ 105) with (2 ^ 53 * 2 ^ 52) in Hn. nia.
    - apply Z.div_lt_upper_bound; [lia|].
      change (2 ^ 106) with (2 ^ 52 * 2 ^ 54) in Hn. nia. }
  assert (Dq : 53 <= Zdigits2 (n / Zpos my) <= 54).
  { apply Zdigits2_range; [lia | exact Bq]. }
  assert (Hmul : n / Zpos my * Zpos my <= n).
  { rewrite Z.mul_comm. apply Z.mul_div_le. lia. }
  destruct (round_aux_normal (xorb sx sy) (n / Zpos my) (ex - ey - 53)
              (new_location (Zpos my) (n mod Zpos my)))
    as (m & e & E & Dm & Be & Bv); try lia.
  exists m, e. rewrite E. repeat split; try lia; try assumption.
  assert (H2 : 2 ^ (Zdigits2 (n / Zpos my) - 53) <= 2).
  { apply (Z.pow_le_mono_r 2 _ 1); lia. }
  assert (0 < 2 ^ (e - (ex - ey - 53))) by (apply pow2_pos; lia).
  nia.
Qed.

Lemma shiftl_lt (x n K c : Z) :
  0 <= x -> 0 <= K -> 0 <= n + K ->
  x * 2 ^ (n + K) < c * 2 ^ K -> 0 <= Z.shiftl x n < c.
Proof.
  intros Hx HK HnK H. split; [apply Z.shiftl_nonneg; assumption|].
  assert (PK : 0 < 2 ^ K) by (apply pow2_pos; lia).
  destruct (Z_le_gt_dec 0 n) as [Hn | Hn].
  - rewrite Z.shiftl_mul_pow2 by lia.
    rewrite Z.pow_add_r in H by lia. nia.
  - rewrite Z.shiftl_div_pow2 by lia.
    assert (Pn : 0 < 2 ^ (- n)) by (apply pow2_pos; lia).
    apply Z.div_lt_upper_bound; [assumption|].
    assert (E : 2 ^ K = 2 ^ (n + K) * 2 ^ (- n)).
    { rewrite <- Z.pow_add_r by lia. f_equal. lia. }
    assert (P : 0 < 2 ^ (n + K)) by (apply pow2_pos; lia).
    rewrite E in H. nia.
Qed.

(** [v - 0.8] for a double [v] between 0.8 and 8. *)
Lemma SFsub_c08 (mv : positive) (ev : Z) :
  Zpos (digits2_pos mv) = 53 -> -53 <= ev <= -50 ->
  0 <= Zpos mv * 2 ^ (ev + 53) - Zpos m08 ->
  SFsub 53 1024 (S754_finite false mv ev) (S754_finite false m08 (-53)) = S754_zero false
  \/ exists md ed,
       SFsub 53 1024 (S754_finite false mv ev) (S754_finite false m08 (-53))
         = S754_finite false md ed
       /\ Zpos (digits2_pos md) = 53
       /\ -105 <= ed <= -49
       /\ Zpos md * 2 ^ (ed + 105) <= (Zpos mv * 2 ^ (ev + 53) - Zpos m08 + 8) * 2 ^ 52.
Proof.
  intros Dv He HM. unfold SFsub. cbn [cond_Zopp].
  replace (Z.min ev (-53)) with (-53) by lia.
  destruct (shl_align_spec mv ev (-53)) as [_ E]; [lia|]. rewrite E.
  rewrite (shl_align_id m08 (-53) (-53)) by lia. cbn [fst].
  replace (ev - -53) with (ev + 53) by lia.
  pose proof (digits2_pos_bounds mv) as Bv. rewrite Dv in Bv.
  assert (Hs : 2 ^ (ev + 53) <= 2 ^ 3) by (apply Z.pow_le_mono_r; lia).
  assert (Hp : 0 < 2 ^ (ev + 53)) by (apply pow2_pos; lia).
  set (M := Zpos mv * 2 ^ (ev + 53) - Zpos m08) in *.
  assert (HMu : M < 2 ^ 56).
  { unfold M. change (2 ^ 56) with (2 ^ 53 * 2 ^ 3). nia. }
  destruct M as [ | p | p ] eqn:EM; [left; reflexivity | right | lia].
  cbn [binary_normalize].
  assert (Dp : 1 <= Zpos (digits2_pos p) <= 56).
  { change (Zpos (digits2_pos p)) with (Zdigits2 (Zpos p)).
    apply Zdigits2_range; [lia|]. change (2 ^ (1 - 1)) with 1. lia. }
  destruct (binary_round_normal false p (-53)) as (m & e & Er & Dm & Be & Bm); try lia.
  exists m, e. rewrite Er. repeat split; try lia; try assumption.
  set (b := -53 + Zpos (digits2_pos p) - 53) in *.
  set (lo := Z.min (-53) b) in *.
  assert (E1 : 2 ^ (e + 105) = 2 ^ (e - lo) * 2 ^ (lo + 105)).
  { rewrite <- Z.pow_add_r by lia. f_equal. lia. }
  assert (E2 : 2 ^ 52 = 2 ^ (-53 - lo) * 2 ^ (lo + 105)).
  { rewrite <- Z.pow_add_r by lia. f_equal. lia. }
  assert (E3 : 2 ^ (b - lo) * 2 ^ (lo + 105) <= 2 ^ 55).
  { rewrite <- Z.pow_add_r by lia. apply Z.pow_le_mono_r; lia. }
  assert (P : 0 < 2 ^ (lo + 105)) by (apply pow2_pos; lia).
  rewrite E1, E2. change (2 ^ 55) with 36028797018963968 in E3.
  generalize dependent (2 ^ (e - lo)). generalize dependent (2 ^ (-53 - lo)).
  generalize dependent (2 ^ (b - lo)). generalize dependent (2 ^ (lo + 105)).
  intros. nia.
Qed.

(** The integral part of the quotient [(v - 0.8) / y] stays below [c] when
    the scaled difference stays below [Mmax]. *)
Lemma quotient_code_bound (mv my : positive) (ev ey c Mmax : Z) :
  Zpos (digits2_pos mv) = 53 -> -53 <= ev <= -50 ->
  Zpos (digits2_pos my) = 53 -> -100 <= ey <= 100 ->
  0 <= Zpos mv * 2 ^ (ev + 53) - Zpos m08 <= Mmax ->
  (Mmax + 8) * (2 ^ 105 + 2 * Zpos my) < c * 2 ^ (158 + ey) * Zpos my ->
  c <= 256 ->
  exists t,
    IEEE.to_uint8
      (SFdiv 53 1024
         (SFsub 53 1024 (S754_finite false mv ev) (S754_finite false m08 (-53)))
         (S754_finite false my ey)) = Some t
    /\ 0 <= t < c.
Proof.
  intros Dv Hev Dy Hey HM Hc Hc256.
  assert (Hc0 : 0 < c).
  { assert (0 < 2 ^ (158 + ey)) by (apply pow2_pos; lia).
    assert (0 < 2 ^ 105) by (apply pow2_pos; lia). nia. }
  destruct (SFsub_c08 mv ev Dv Hev) as [-> | (md & ed & -> & Dd & Hed & Hd)]; [lia | | ].
  - exists 0. cbn. split; [reflexivity | lia].
  - destruct (SFdiv_normal false false md my ed ey Dd Dy) as (mq & eq & -> & Dq & Heq & Hq);
      try lia.
    cbn [xorb IEEE.to_uint8 IEEE.trunc].
    set (e0 := ed - ey - 53) in *.
    assert (Hs : 0 <= Z.shiftl (Zpos mq) eq < c).
    { apply shiftl_lt with (K := 158 + ey); try lia.
      replace (eq + (158 + ey)) with ((eq - e0) + (ed + 105)) by lia.
      rewrite Z.pow_add_r by lia.
      pose proof (digits2_pos_bounds md) as Bd. rewrite Dd in Bd. change (53 - 1) with 52 in Bd.
      assert (PA : 0 < 2 ^ (eq - e0)) by (apply pow2_pos; lia).
      assert (PB : 0 < 2 ^ (ed + 105)) by (apply pow2_pos; lia).
      assert (PK : 0 < 2 ^ (158 + ey)) by (apply pow2_pos; lia).
      set (M := Zpos mv * 2 ^ (ev + 53) - Zpos m08) in *.
      generalize dependent (2 ^ (eq - e0)). generalize dependent (2 ^ (ed + 105)).
      generalize dependent (2 ^ (158 + ey)).
      change (2 ^ 105) with (2 ^ 52 * 2 ^ 53). generalize dependent (2 ^ 53).
      generalize dependent (2 ^ 52).
      intros T52 T53 Bd K Hc PK B Hd PB A Hq PA.
      assert (HB : B <= M + 8) by nia.
      assert (H1 : Zpos mq * A * Zpos my * B <= (Zpos md * T53 + 2 * Zpos my) * B).
      { apply Z.mul_le_mono_nonneg_r; lia. }
      assert (H2 : Zpos md * B * T53 <= (M + 8) * T52 * T53).
      { apply Z.mul_le_mono_nonneg_r; lia. }
      assert (H3 : 2 * Zpos my * B <= 2 * Zpos my * (M + 8)).
      { apply Z.mul_le_mono_nonneg_l; lia. }
      assert (H4 : (M + 8) * (T52 * T53 + 2 * Zpos my) <= (Mmax + 8) * (T52 * T53 + 2 * Zpos my)).
      { apply Z.mul_le_mono_nonneg_r; nia. }
      assert (H5 : Zpos mq * A * B * Zpos my < c * K * Zpos my) by nia.
      apply Z.mul_lt_mono_pos_r with (p := Zpos my); lia. }
    exists (Z.shiftl (Zpos mq) eq).
    replace (0 <=? Z.shiftl (Zpos mq) eq) with true by (symmetry; apply Z.leb_le; lia).
    replace (Z.shiftl (Zpos mq) eq <=? 255) with true by (symmetry; apply Z.leb_le; lia).
    split; [reflexivity | assumption].
Qed.

(** *** Comparisons *)

Lemma SFcompare_antisym (a b : spec_float) :
  SFcompare b a = option_map CompOpp (SFcompare a b).
Proof.
  destruct a as [sa | sa | | sa ma ea], b as [sb | sb | | sb mb eb];
    try reflexivity;
    try (destruct sa; reflexivity); try (destruct sb; reflexivity);
    try (destruct sa, sb; reflexivity).
  unfold SFcompare, option_map.
  pose proof (Pos.compare_cont_antisym ma mb Eq) as P. cbn [CompOpp] in P.
  rewrite (Z.compare_antisym ea eb), <- P.
  destruct sa, sb, (ea ?= eb), (Pos.compare_cont Eq ma mb); reflexivity.
Qed.

Lemma SFleb_ltb_false (a b : spec_float) :
  SFleb a b = true -> SFltb b a = false.
Proof.
  unfold SFleb, SFltb. rewrite (SFcompare_antisym a b).
  destruct (SFcompare a b) as [[ | | ] | ]; cbn; congruence.
Qed.

Lemma SFltb_false_leb (a b : spec_float) :
  SFcompare a b <> None -> SFltb a b = false -> SFleb b a = true.
Proof.
  unfold SFleb, SFltb. rewrite (SFcompare_antisym a b).
  destruct (SFcompare a b) as [[ | | ] | ]; cbn; congruence.
Qed.

Lemma SFleb_pos (m1 m2 : positive) (e1 e2 : Z) :
  SFleb (S754_finite false m1 e1) (S754_finite false m2 e2) = true <->
  e1 < e2 \/ (e1 = e2 /\ Zpos m1 <= Zpos m2).
Proof.
  unfold SFleb, SFcompare.
  change (Pos.compare_cont Eq m1 m2) with (Pos.compare m1 m2).
  destruct (Z.compare_spec e1 e2) as [E | E | E].
  - destruct (Pos.compare_spec m1 m2) as [P | P | P]; split; intros H;
      try reflexivity; try discriminate; try (right; split; [assumption | lia]); lia.
  - split; [left; assumption | reflexivity].
  - split; [discriminate | lia].
Qed.

(** A double between two positive normal doubles is positive and normal. *)
Lemma double_range_inv (v : spec_float) (ma mb : positive) (ea eb : Z) :
  IEEE.is_double v = true -> -1021 <= ea ->
  SFleb (S754_finite false ma ea) v = true ->
  SFleb v (S754_finite false mb eb) = true ->
  exists mv ev,
    v = S754_finite false mv ev
    /\ Zpos (digits2_pos mv) = 53
    /\ (ea < ev \/ (ea = ev /\ Zpos ma <= Zpos mv))
    /\ (ev < eb \/ (ev = eb /\ Zpos mv <= Zpos mb)).
Proof.
  intros Hv Hea Hl Hu.
  destruct v as [s | s | | s mv ev]; try discriminate;
    try (destruct s; discriminate).
  destruct s; [discriminate|].
  apply SFleb_pos in Hl. apply SFleb_pos in Hu.
  exists mv, ev. repeat split; try assumption.
  unfold IEEE.is_double, valid_binary, bounded, canonical_mantissa in Hv.
  apply andb_prop in Hv as [Hc _]. apply Z.eqb_eq in Hc.
  change IEEE.prec64 with 53 in Hc. change IEEE.emax64 with 1024 in Hc.
  rewrite fexp64 in Hc. lia.
Qed.

(** The promotion of a [float] is a [double]. *)
Lemma double_of_float_valid (x : spec_float) :
  IEEE.is_float x = true -> IEEE.is_double (IEEE.double_of_float x) = true.
Proof.
  destruct x as [s | s | | s m e]; try reflexivity.
  unfold IEEE.is_float, valid_binary, bounded, canonical_mantissa. intros H.
  apply andb_prop in H as [Hc Hb]. apply Z.eqb_eq in Hc. apply Z.leb_le in Hb.
  change (fexp IEEE.prec32 IEEE.emax32 (Zpos (digits2_pos m) + e))
    with (Z.max (Zpos (digits2_pos m) + e - 24) (-149)) in Hc.
  change (IEEE.emax32 - IEEE.prec32) with 104 in Hb.
  pose proof (Pos2Z.is_pos (digits2_pos m)).
  cbn [IEEE.double_of_float]. change IEEE.prec64 with 53. change IEEE.emax64 with 1024.
  destruct (binary_round_small s m e) as (m' & -> & _ & Dm); try lia.
  unfold IEEE.is_double, valid_binary, bounded, canonical_mantissa.
  change IEEE.prec64 with 53. change IEEE.emax64 with 1024.
  rewrite fexp64, Dm. apply andb_true_intro. split.
  - apply Z.eqb_eq. lia.
  - apply Z.leb_le. lia.
Qed.

End Rounding.

(** ** The comparisons read on exact values *)

Module Exact.

Import Rounding.

(** The exact value as a fraction with denominator [2 ^ K]. *)
Lemma F2Q_scaled (s : bool) (m : positive) (e K : Z) :
  0 <= K -> 0 <= e + K ->
  (F2Q (S754_finite s m e) == Qmake (signed s m * 2 ^ (e + K)) (Z.to_pos (2 ^ K)))%Q.
Proof.
  intros HK He. pose proof (pow2_pos K HK) as PK.
  unfold F2Q, Qeq. cbv zeta.
  destruct e as [ | p | p ]; cbn [Qnum Qden inject_Z]; rewrite Z2Pos.id by assumption.
  - cbn [Z.add]. change (2 ^ 0) with 1. ring.
  - rewrite Z.pow_add_r by lia. ring.
  - rewrite Pos2Z.inj_pow.
    replace (2 ^ K) with (2 ^ (Zneg p + K) * 2 ^ Zpos p) at 1.
    + change (Zpos 2) with 2. ring.
    + rewrite <- Z.pow_add_r by lia. f_equal. lia.
Qed.

Lemma Qle_scaled (n dn : positive) (a K : Z) :
  0 <= K ->
  (Zpos n # dn <= Qmake a (Z.to_pos (2 ^ K)))%Q <-> Zpos n * 2 ^ K <= a * Zpos dn.
Proof.
  intros HK. unfold Qle. cbn [Qnum Qden]. rewrite Z2Pos.id by (apply pow2_pos; lia).
  reflexivity.
Qed.

Lemma Qge_scaled (n dn : positive) (a K : Z) :
  0 <= K ->
  (Qmake a (Z.to_pos (2 ^ K)) <= Zpos n # dn)%Q <-> a * Zpos dn <= Zpos n * 2 ^ K.
Proof.
  intros HK. unfold Qle. cbn [Qnum Qden]. rewrite Z2Pos.id by (apply pow2_pos; lia).
  reflexivity.
Qed.

(** Promotion does not change the value. *)
Lemma double_of_float_exact (x : spec_float) :
  is_float x = true -> (F2Q (double_of_float x) == F2Q x)%Q.
Proof.
  destruct x as [s | s | | s m e]; try reflexivity.
  unfold is_float, valid_binary, bounded, canonical_mantissa. intros H.
  apply andb_prop in H as [Hc Hb]. apply Z.eqb_eq in Hc. apply Z.leb_le in Hb.
  change (fexp prec32 emax32 (Zpos (digits2_pos m) + e))
    with (Z.max (Zpos (digits2_pos m) + e - 24) (-149)) in Hc.
  change (emax32 - prec32) with 104 in Hb.
  pose proof (Pos2Z.is_pos (digits2_pos m)).
  cbn [double_of_float]. change prec64 with 53. change emax64 with 1024.
  destruct (binary_round_small s m e) as (m' & -> & Em & _); try lia.
  rewrite (F2Q_scaled s m' _ 1074), (F2Q_scaled s m e 1074) by lia.
  unfold Qeq. cbn [Qnum Qden]. f_equal.
  assert (E : signed s m' = signed s m * 2 ^ (53 - Zpos (digits2_pos m))).
  { unfold signed. destruct s; [|exact Em].
    change (Zneg m') with (- Zpos m'). change (Zneg m) with (- Zpos m). rewrite Em. ring. }
  rewrite E, <- Z.mul_assoc, <- Z.pow_add_r by lia. do 2 f_equal. lia.
Qed.

(** Canonical mantissas and exponents compare as the values do. *)
Lemma canonical_le_iff (m1 m2 e1 e2 : Z) :
  0 < m1 < 2 ^ 53 -> 0 < m2 < 2 ^ 53 ->
  (-1074 < e1 -> 2 ^ 52 <= m1) -> (-1074 < e2 -> 2 ^ 52 <= m2) ->
  -1074 <= e1 -> -1074 <= e2 ->
  (e1 < e2 \/ (e1 = e2 /\ m1 <= m2))
  <-> m1 * 2 ^ (e1 + 1074) <= m2 * 2 ^ (e2 + 1074).
Proof.
  change (2 ^ 52) with 4503599627370496. change (2 ^ 53) with 9007199254740992.
  intros B1 B2 N1 N2 H1 H2.
  destruct (Z.lt_trichotomy e1 e2) as [L | [E | G]].
  - split; [intros _ | intros _; left; exact L].
    replace (e2 + 1074) with ((e2 - e1 - 1) + 1 + (e1 + 1074)) by lia.
    rewrite (Z.pow_add_r 2 (e2 - e1 - 1 + 1)), (Z.pow_add_r 2 (e2 - e1 - 1) 1) by lia.
    change (2 ^ 1) with 2.
    pose proof (pow2_pos (e2 - e1 - 1) ltac:(lia)) as PA.
    pose proof (pow2_pos (e1 + 1074) ltac:(lia)) as PB.
    generalize dependent (2 ^ (e2 - e1 - 1)). generalize dependent (2 ^ (e1 + 1074)).
    intros P PP A PA.
    assert (m1 * P <= 2 * m2 * P) by nia.
    assert (2 * m2 * P * 1 <= 2 * m2 * P * A) by (apply Z.mul_le_mono_nonneg_l; nia).
    lia.
  - subst e2. pose proof (pow2_pos (e1 + 1074) ltac:(lia)).
    split; [intros [? | [_ ?]]; [lia | nia] | intros ?; right; split; [reflexivity | nia]].
  - split; [intros [? | [? _]]; lia|].
    replace (e1 + 1074) with ((e1 - e2 - 1) + 1 + (e2 + 1074)) by lia.
    rewrite (Z.pow_add_r 2 (e1 - e2 - 1 + 1)), (Z.pow_add_r 2 (e1 - e2 - 1) 1) by lia.
    change (2 ^ 1) with 2.
    pose proof (pow2_pos (e1 - e2 - 1) ltac:(lia)) as PA.
    pose proof (pow2_pos (e2 + 1074) ltac:(lia)) as PB.
    generalize dependent (2 ^ (e1 - e2 - 1)). generalize dependent (2 ^ (e2 + 1074)).
    intros P PP A PA.
    assert (m2 * P < 2 * m1 * P) by nia.
    assert (2 * m1 * P * 1 <= 2 * m1 * P * A) by (apply Z.mul_le_mono_nonneg_l; nia).
    lia.
Qed.

Lemma is_double_finite (s : bool) (m : positive) (e : Z) :
  is_double (S754_finite s m e) = true ->
  -1074 <= e /\ 0 < Zpos m < 2 ^ 53 /\ (-1074 < e -> 2 ^ 52 <= Zpos m).
Proof.
  unfold is_double, valid_binary, bounded, canonical_mantissa. intros H.
  apply andb_prop in H as [Hc _]. apply Z.eqb_eq in Hc.
  change prec64 with 53 in Hc. change emax64 with 1024 in Hc.
  rewrite fexp64 in Hc.
  pose proof (digits2_pos_bounds m) as [Bl Bu].
  assert (Hd : Zpos (digits2_pos m) <= 53) by lia.
  assert (2 ^ Zpos (digits2_pos m) <= 2 ^ 53) by (apply Z.pow_le_mono_r; lia).
  repeat split; try lia.
  intros He. replace (Zpos (digits2_pos m)) with 53 in Bl by lia. exact Bl.
Qed.

(** [n / dn <= v], when the double [mc * 2 ^ ec] is the least one that is
    not below [n / dn]. *)
Lemma SFleb_lower_exact (v : spec_float) (mc n dn : positive) (ec : Z) :
  is_double v = true -> is_finite v = true ->
  2 ^ 52 < Zpos mc < 2 ^ 53 -> -1074 < ec ->
  Zpos n * 2 ^ 1074 <= Zpos mc * 2 ^ (ec + 1074) * Zpos dn ->
  (Zpos mc - 1) * 2 ^ (ec + 1074) * Zpos dn < Zpos n * 2 ^ 1074 ->
  SFleb (S754_finite false mc ec) v = true <-> (Zpos n # dn <= F2Q v)%Q.
Proof.
  intros Hv Hfin Bc Hec H1 H2.
  destruct v as [s | s | | s mv ev]; try discriminate Hfin.
  - split; [discriminate|]. unfold Qle; cbn. lia.
  - destruct (is_double_finite _ _ _ Hv) as (He & Bm & Nm).
    rewrite (F2Q_scaled s mv ev 1074) by lia. rewrite Qle_scaled by lia.
    pose proof (pow2_pos (ev + 1074) ltac:(lia)) as PV.
    pose proof (pow2_pos (ec + 1074) ltac:(lia)) as PC.
    destruct s.
    + split; [discriminate|]. unfold signed. intros H. exfalso.
      pose proof (pow2_pos 1074 ltac:(lia)). nia.
    + unfold signed. rewrite SFleb_pos.
      rewrite (canonical_le_iff (Zpos mc) (Zpos mv) ec ev) by lia.
      split; intros H.
      * apply Z.le_trans with (1 := H1). apply Z.mul_le_mono_nonneg_r; lia.
      * destruct (Z_le_gt_dec (Zpos mc * 2 ^ (ec + 1074)) (Zpos mv * 2 ^ (ev + 1074)))
          as [ | G]; [assumption | exfalso].
        assert (L : Zpos mv * 2 ^ (ev + 1074) <= (Zpos mc - 1) * 2 ^ (ec + 1074)).
        { apply (canonical_le_iff (Zpos mv) (Zpos mc - 1) ev ec); try lia.
          assert (N : ~ (ec < ev \/ (ec = ev /\ Zpos mc <= Zpos mv))).
          { rewrite (canonical_le_iff (Zpos mc) (Zpos mv) ec ev) by lia. lia. }
          lia. }
        assert (Zpos mv * 2 ^ (ev + 1074) * Zpos dn
                <= (Zpos mc - 1) * 2 ^ (ec + 1074) * Zpos dn)
          by (apply Z.mul_le_mono_nonneg_r; lia).
        lia.
Qed.

(** [v <= n / dn], when the double [mc * 2 ^ ec] is the greatest one that
    is not above [n / dn]. *)
Lemma SFleb_upper_exact (v : spec_float) (mc n dn : positive) (ec : Z) :
  is_double v = true -> is_finite v = true ->
  2 ^ 52 <= Zpos mc -> Zpos mc + 1 < 2 ^ 53 -> -1074 < ec ->
  Zpos mc * 2 ^ (ec + 1074) * Zpos dn <= Zpos n * 2 ^ 1074 ->
  Zpos n * 2 ^ 1074 < (Zpos mc + 1) * 2 ^ (ec + 1074) * Zpos dn ->
  SFleb v (S754_finite false mc ec) = true <-> (F2Q v <= Zpos n # dn)%Q.
Proof.
  intros Hv Hfin Bc Bc' Hec H1 H2.
  destruct v as [s | s | | s mv ev]; try discriminate Hfin.
  - split; [intros _; unfold Qle; cbn; lia | reflexivity].
  - destruct (is_double_finite _ _ _ Hv) as (He & Bm & Nm).
    rewrite (F2Q_scaled s mv ev 1074) by lia. rewrite Qge_scaled by lia.
    pose proof (pow2_pos (ev + 1074) ltac:(lia)) as PV.
    pose proof (pow2_pos (ec + 1074) ltac:(lia)) as PC.
    destruct s.
    + split; [intros _ | reflexivity]. unfold signed.
      pose proof (pow2_pos 1074 ltac:(lia)). nia.
    + unfold signed. rewrite SFleb_pos.
      rewrite (canonical_le_iff (Zpos mv) (Zpos mc) ev ec) by lia.
      split; intros H.
      * apply Z.le_trans with (2 := H1). apply Z.mul_le_mono_nonneg_r; lia.
      * destruct (Z_le_gt_dec (Zpos mv * 2 ^ (ev + 1074)) (Zpos mc * 2 ^ (ec + 1074)))
          as [ | G]; [assumption | exfalso].
        assert (L : (Zpos mc + 1) * 2 ^ (ec + 1074) <= Zpos mv * 2 ^ (ev + 1074)).
        { apply (canonical_le_iff (Zpos mc + 1) (Zpos mv) ec ev); try lia.
          assert (N : ~ (ev < ec \/ (ev = ec /\ Zpos mv <= Zpos mc))).
          { rewrite (canonical_le_iff (Zpos mv) (Zpos mc) ev ec) by lia. lia. }
          lia. }
        assert ((Zpos mc + 1) * 2 ^ (ec + 1074) * Zpos dn
                <= Zpos mv * 2 ^ (ev + 1074) * Zpos dn)
          by (apply Z.mul_le_mono_nonneg_r; lia).
        lia.
Qed.

End Exact.

(** ** Traces of the power controller and of the flash protocol *)

Ltac split_trace H :=
  repeat match type of H with
         | _ :: _ = ?t1 ++ _ :: _ => destruct t1; cbn [app] in H
         | _ :: _ = _ :: _ => injection H as ? H
         | [] = ?t1 ++ _ :: _ => destruct t1; discriminate H
         | [] = _ :: _ => discriminate H
         | _ :: _ = [] => discriminate H
         end.

Lemma land_pow2_testbit (x n : Z) :
  0 <= n -> (Z.land x (2 ^ n) =? 0) = negb (Z.testbit x n).
Proof.
  intros Hn.
  assert (E : Z.land x (2 ^ n) = if Z.testbit x n then 2 ^ n else 0).
  { apply Z.bits_inj'. intros i Hi.
    rewrite Z.land_spec, Z.pow2_bits_eqb by assumption.
    destruct (Z.eqb_spec n i) as [-> | Hne].
    - destruct (Z.testbit x i); [rewrite Z.pow2_bits_true by assumption | rewrite Z.bits_0]; reflexivity.
    - rewrite andb_false_r.
      destruct (Z.testbit x n); [rewrite Z.pow2_bits_false by assumption | rewrite Z.bits_0]; reflexivity. }
  rewrite E. destruct (Z.testbit x n); [|reflexivity].
  apply Z.eqb_neq. pose proof (Rounding.pow2_pos n Hn). lia.
Qed.

(** C1: disabling the FPGA core rail writes the I/O-rail shutdown (register
    0x39, value 0x0C) strictly before the core-rail disable (register 0x2C);
    the shutdown precedes every core-rail disable of the trace and nothing
    touches the I/O-rail control register after it. *)
Theorem fpga_vcore_disable_order (h : list event) :
  exists t,
    s1_pimc_fpga_vcore false h = Some (tt, t)
    /\ t = [reg_write 0x2B 0x08; reg_write 0x39 0x0C; reg_write 0x2C 0x7C]
    /\ issued_before (reg_write 0x39 0x0C) (reg_write 0x2C 0x7C) t
    /\ (forall t1 t2 value, t = t1 ++ reg_write 0x2C value :: t2 ->
          In (reg_write 0x39 0x0C) t1
          /\ forall e, In e t2 -> writes_reg 0x39 e = false).
Proof.
  exists [reg_write 0x2B 0x08; reg_write 0x39 0x0C; reg_write 0x2C 0x7C].
  split; [reflexivity|]. split; [reflexivity|]. split.
  - exists [reg_write 0x2B 0x08], [], []. reflexivity.
  - intros t1 t2 value H. unfold reg_write in H. split_trace H; try discriminate.
    subst. split; [right; left; reflexivity | intros e []].
Qed.

(** C9: whatever the argument and the traffic before the call, the first
    event of [s1_pimc_fpga_vcore] is the write of 0x08 (1.2 V) to the
    core rail's voltage register 0x2B. *)
Theorem fpga_vcore_pins_voltage_first (enable : bool) (h : list event) :
  exists rest,
    s1_pimc_fpga_vcore enable h = Some (tt, reg_write 0x2B 0x08 :: rest)
    /\ hd_error (reg_writes (reg_write 0x2B 0x08 :: rest)) = Some (reg_write 0x2B 0x08).
Proof.
  destruct enable; eexists; split; reflexivity.
Qed.

(** C10: enabling the FPGA core rail writes the core rail's voltage
    register 0x2B and control register 0x2C and nothing else; the I/O
    rail's control register 0x39 is not written. *)
Theorem fpga_vcore_enable_frame (h : list event) :
  exists t,
    s1_pimc_fpga_vcore true h = Some (tt, t)
    /\ t = [reg_write 0x2B 0x08; reg_write 0x2C 0x7E]
    /\ Forall (fun e => writes_reg 0x39 e = false) t
    /\ Forall (fun e => writes_reg 0x2B e || writes_reg 0x2C e = true) t.
Proof.
  eexists. split; [reflexivity|]. split; [reflexivity|].
  split; repeat constructor.
Qed.

(** C8: [s1_flash_erase_all] issues exactly two SPI transactions, each of
    one byte and without reception: opcode 0x06, then opcode 0x60. *)
Theorem flash_erase_all_transactions (hw : hardware) (h : list event) :
  exists t,
    s1_flash_erase_all hw h = Some (tt, t)
    /\ spi_transactions t = [SPIM_TRX [0x06] 0; SPIM_TRX [0x60] 0]
    /\ bus_activity t = spi_transactions t.
Proof.
  eexists. split; [reflexivity|]. split; reflexivity.
Qed.

(** C4: [s1_flash_wakeup] issues exactly four SPI transactions, the wake
    command 0xAB 0 0 0, opcode 0x66, opcode 0x99 and the identification
    0x9F with four bytes received, with a delay of 3 us after the wake and
    of 30 us after the reset pair; it returns [S1_SUCCESS] when the fourth
    byte received is 0x16 and [S1_FLASH_ERROR] otherwise. *)
Theorem flash_wakeup_protocol (hw : hardware) (h : list event) :
  let before_identify :=
    [spi_setup; DELAY_US 30; SPIM_TRX [0x99] 0; spi_setup; SPIM_TRX [0x66] 0;
     spi_setup; DELAY_US 3; SPIM_TRX [0xAB; 0; 0; 0] 0; spi_setup] ++ h in
  let capacity := u8 (flash_answer hw before_identify [0x9F] 3) in
  exists r t,
    s1_flash_wakeup hw h = Some (r, t)
    /\ spi_transactions t =
         [SPIM_TRX [0xAB; 0; 0; 0] 0; SPIM_TRX [0x66] 0; SPIM_TRX [0x99] 0;
          SPIM_TRX [0x9F] 4]
    /\ bus_activity t =
         [SPIM_TRX [0xAB; 0; 0; 0] 0; DELAY_US 3; SPIM_TRX [0x66] 0;
          SPIM_TRX [0x99] 0; DELAY_US 30; SPIM_TRX [0x9F] 4]
    /\ (r = S1_SUCCESS <-> capacity = 0x16)
    /\ (r = S1_SUCCESS \/ r = S1_FLASH_ERROR).
Proof.
  intros before_identify capacity.
  cbv [s1_flash_wakeup bind flash_tx_rx APP_ERROR_CHECK nrfx_spim_init
       nrfx_spim_xfer NRFX_DELAY_US emit ret rev_append
       rx_fill map seq nth app firstn skipn].
  change (u8 (flash_answer hw _ [0x9F] 3)) with capacity.
  destruct (Z.eqb_spec capacity 0x16) as [E | E]; cbn [negb];
    do 2 eexists; (split; [reflexivity|]);
    (split; [reflexivity|]); (split; [reflexivity|]); split.
  - tauto.
  - left; reflexivity.
  - split; [discriminate | tauto].
  - right; reflexivity.
Qed.

(** C7: [s1_flash_is_busy] sends opcode 0x05, receives two bytes and
    returns whether bit 0 of the second is set; it issues nothing else, and
    a second call that receives the same status byte returns the same. *)
Theorem flash_is_busy_status (hw : hardware) (h : list event) :
  let status (h' : list event) := u8 (flash_answer hw (spi_setup :: h') [0x05] 1) in
  let t := [spi_setup; SPIM_TRX [0x05] 2] in
  s1_flash_is_busy hw h = Some (Z.testbit (status h) 0, t)
  /\ spi_transactions t = [SPIM_TRX [0x05] 2]
  /\ (status (rev_append t h) = status h ->
      s1_flash_is_busy hw (rev_append t h) = s1_flash_is_busy hw h).
Proof.
  intros status t.
  assert (R : forall h', s1_flash_is_busy hw h' = Some (Z.testbit (status h') 0, t)).
  { intros h'.
    cbv [s1_flash_is_busy bind flash_tx_rx APP_ERROR_CHECK nrfx_spim_init
         nrfx_spim_xfer emit ret rev_append
         rx_fill map seq nth app firstn skipn].
    change (u8 (flash_answer hw _ [0x05] 1)) with (status h').
    pose proof (land_pow2_testbit (status h') 0 (Z.le_refl 0)) as B.
    change (2 ^ 0) with 1 in B. rewrite B.
    destruct (Z.testbit (status h') 0); reflexivity. }
  split; [apply R|]. split; [reflexivity|].
  intros E. rewrite !R, E. reflexivity.
Qed.

(** ** The voltage setters *)

Lemma dlit_8_10 : dlit 8 10 = S754_finite false m08 (-53).
Proof. vm_compute. reflexivity. Qed.

Lemma dlit_55_10 : dlit 55 10 = S754_finite false 6192449487634432 (-50).
Proof. vm_compute. reflexivity. Qed.

Lemma dlit_346_100 : dlit 346 100 = S754_finite false 7791227355350958 (-51).
Proof. vm_compute. reflexivity. Qed.

Lemma dlit_5_100 : dlit 5 100 = S754_finite false m08 (-57).
Proof. vm_compute. reflexivity. Qed.

Lemma dlit_25_1000 : dlit 25 1000 = S754_finite false m08 (-58).
Proof. vm_compute. reflexivity. Qed.

Lemma to_uint8_trunc (x : spec_float) (c : Z) :
  to_uint8 x = Some c -> trunc x = Some c /\ 0 <= c <= 255.
Proof.
  unfold to_uint8. destruct (trunc x) as [t|]; [|discriminate].
  destruct (Z.leb_spec 0 t), (Z.leb_spec t 255); cbn [andb]; try discriminate.
  intros [= <-]. split; [reflexivity | lia].
Qed.

(** Between 0.8 and 5.5 the conversion of [(v - 0.8) / 0.05] to [uint8_t]
    is defined and gives at most 94. *)
Lemma vaux_code_defined (v : spec_float) :
  is_double v = true ->
  dle (dlit 8 10) v = true -> dle v (dlit 55 10) = true ->
  exists mv ev code,
    v = S754_finite false mv ev
    /\ to_uint8 (ddiv (dsub v (dlit 8 10)) (dlit 5 100)) = Some code
    /\ 0 <= code <= 94.
Proof.
  rewrite dlit_8_10, dlit_55_10, dlit_5_100. unfold dle. intros Hv Hl Hu.
  destruct (Rounding.double_range_inv v m08 _ (-53) _ Hv ltac:(lia) Hl Hu)
    as (mv & ev & -> & Dv & Hlo & Hhi).
  pose proof (Rounding.digits2_pos_bounds mv) as Bv. rewrite Dv in Bv.
  change (2 ^ (53 - 1)) with 4503599627370496 in Bv.
  change (2 ^ 53) with 9007199254740992 in Bv.
  destruct (Rounding.quotient_code_bound mv m08 ev (-57) 95
              (8 * 6192449487634432 - Zpos m08)) as (t & Ht & Bt);
    try reflexivity; try assumption; try lia.
  - assert (C : ev = -53 \/ ev = -52 \/ ev = -51 \/ ev = -50) by lia.
    unfold m08 in *.
    destruct C as [-> | [-> | [-> | ->]]]; cbn [Z.add Z.pos_sub Pos.pred_double Z.opp];
      [ change (2 ^ 0) with 1 | change (2 ^ 1) with 2
      | change (2 ^ 2) with 4 | change (2 ^ 3) with 8 ]; lia.
  - exists mv, ev, t. repeat split; try lia. exact Ht.
Qed.

(** Between 0.8 and 3.46 the conversion of [(v - 0.8) / 0.025] to
    [uint8_t] is defined and gives at most 106. *)
Lemma vio_code_defined (v : spec_float) :
  is_double v = true ->
  dle (dlit 8 10) v = true -> dle v (dlit 346 100) = true ->
  exists mv ev code,
    v = S754_finite false mv ev
    /\ to_uint8 (ddiv (dsub v (dlit 8 10)) (dlit 25 1000)) = Some code
    /\ 0 <= code <= 106.
Proof.
  rewrite dlit_8_10, dlit_346_100, dlit_25_1000. unfold dle. intros Hv Hl Hu.
  destruct (Rounding.double_range_inv v m08 _ (-53) _ Hv ltac:(lia) Hl Hu)
    as (mv & ev & -> & Dv & Hlo & Hhi).
  pose proof (Rounding.digits2_pos_bounds mv) as Bv. rewrite Dv in Bv.
  change (2 ^ (53 - 1)) with 4503599627370496 in Bv.
  change (2 ^ 53) with 9007199254740992 in Bv.
  destruct (Rounding.quotient_code_bound mv m08 ev (-58) 107
              (4 * 7791227355350958 - Zpos m08)) as (t & Ht & Bt);
    try reflexivity; try assumption; try lia.
  - assert (C : ev = -53 \/ ev = -52 \/ ev = -51) by lia.
    unfold m08 in *.
    destruct C as [-> | [-> | ->]]; cbn [Z.add Z.pos_sub Pos.pred_double Z.opp];
      [ change (2 ^ 0) with 1 | change (2 ^ 1) with 2 | change (2 ^ 2) with 4 ]; lia.
  - exists mv, ev, t. repeat split; try lia. exact Ht.
Qed.

Lemma SFcompare_finite_r (x : spec_float) (s : bool) (m : positive) (e : Z) :
  x <> S754_nan -> SFcompare (S754_finite s m e) x <> None.
Proof.
  destruct x as [sx | sx | | sx mx ex]; cbn; congruence.
Qed.

Lemma SFltb_leb (a b : spec_float) : SFltb a b = true -> SFleb a b = true.
Proof.
  unfold SFltb, SFleb. destruct (SFcompare a b) as [[ | | ] | ]; congruence.
Qed.

Lemma SFltb_not_nan_r (a b : spec_float) : SFltb a b = true -> b <> S754_nan.
Proof.
  intros H ->. destruct a as [sa | sa | | sa ma ea]; discriminate H.
Qed.

(** What [s1_pmic_set_vaux] does once the range check has passed. *)
Lemma set_vaux_run (hw : hardware) (voltage : spec_float) (h : list event)
      (mv : positive) (ev code : Z) :
  let v := double_of_float voltage in
  v = S754_finite false mv ev ->
  dle (dlit 8 10) v = true -> dle v (dlit 55 10) = true ->
  to_uint8 (ddiv (dsub v (dlit 8 10)) (dlit 5 100)) = Some code ->
  s1_pmic_set_vaux hw voltage h =
    if dgt v (dlit 346 100) then
      if Z.testbit (u8 (pmic_answer hw h 0x39)) 3
      then Some (S1_INVALID_SETTING, [reg_read 0x39])
      else Some (S1_SUCCESS,
                 [reg_read 0x39; reg_write 0x2D code; reg_write 0x2E 0x0E])
    else Some (S1_SUCCESS, [reg_write 0x2D code; reg_write 0x2E 0x0E]).
Proof.
  intros v Ev Hl Hu Hc. unfold s1_pmic_set_vaux. fold v.
  assert (E1 : dlt v (dlit 8 10) = false) by (apply Rounding.SFleb_ltb_false; exact Hl).
  assert (E2 : dgt v (dlit 55 10) = false) by (apply Rounding.SFleb_ltb_false; exact Hu).
  assert (E3 : deq v (S754_zero false) = false) by (rewrite Ev; reflexivity).
  rewrite E1, E2. cbn [orb].
  pose proof (land_pow2_testbit (u8 (pmic_answer hw h 0x39)) 3 ltac:(lia)) as B.
  change (2 ^ 3) with 8 in B.
  destruct (dgt v (dlit 346 100));
    cbv [bind and_then pmic_read_reg pmic_write_reg APP_ERROR_CHECK
         nrfx_twim_xfer_txrx nrfx_twim_xfer_tx emit ret lift rev_append app];
    rewrite ?B, ?negb_involutive, E3, Hc;
    [destruct (Z.testbit (u8 (pmic_answer hw h 0x39)) 3)|]; reflexivity.
Qed.

(** Above 3.46 V, as the code tests it: no register is written before the
    mode register 0x39 has been read, the read opens the trace whenever
    the range check passes, and a set bit 3 ends the call with
    [S1_INVALID_SETTING] and no write. *)
Lemma set_vaux_mode_check_ieee (hw : hardware) (voltage : spec_float) (h : list event) :
  is_float voltage = true ->
  dgt (double_of_float voltage) (dlit 346 100) = true ->
  exists r t,
    s1_pmic_set_vaux hw voltage h = Some (r, t)
    /\ (forall t1 e t2, t = t1 ++ e :: t2 -> is_reg_write e = true ->
          In (reg_read 0x39) t1)
    /\ (dle (double_of_float voltage) (dlit 55 10) = true ->
          exists rest, t = reg_read 0x39 :: rest)
    /\ (Z.testbit (u8 (pmic_answer hw h 0x39)) 3 = true ->
          r = S1_INVALID_SETTING /\ reg_writes t = []).
Proof.
  intros Hf Hgt. pose proof (Rounding.double_of_float_valid voltage Hf) as Hv.
  set (v := double_of_float voltage) in *.
  destruct (dgt v (dlit 55 10)) eqn:E55.
  - exists S1_INVALID_SETTING, [].
    split; [unfold s1_pmic_set_vaux; fold v; rewrite E55, orb_true_r; reflexivity|].
    split; [intros t1 e t2 H; destruct t1; discriminate H|].
    split; [|intros _; split; reflexivity].
    intros Hle. apply Rounding.SFleb_ltb_false in Hle. unfold dgt in E55. congruence.
  - assert (Hu : dle v (dlit 55 10) = true).
    { apply Rounding.SFltb_false_leb; [|exact E55].
      rewrite dlit_55_10. apply SFcompare_finite_r.
      exact (SFltb_not_nan_r _ _ Hgt). }
    assert (H346 : dle (dlit 346 100) v = true) by (apply SFltb_leb; exact Hgt).
    assert (Hl : dle (dlit 8 10) v = true).
    { rewrite dlit_346_100 in H346. rewrite dlit_55_10 in Hu.
      destruct (Rounding.double_range_inv v 7791227355350958 _ (-51) _ Hv ltac:(lia) H346 Hu)
        as (mv & ev & Ev & _ & Hlo & _).
      rewrite dlit_8_10, Ev. apply Rounding.SFleb_pos. lia. }
    destruct (vaux_code_defined v Hv Hl Hu) as (mv & ev & code & Ev & Hc & Bc).
    rewrite (set_vaux_run hw voltage h mv ev code Ev Hl Hu Hc). fold v. rewrite Hgt.
    destruct (Z.testbit (u8 (pmic_answer hw h 0x39)) 3); do 2 eexists;
      (split; [reflexivity|]).
    + split; [intros t1 e t2 H He; unfold reg_read in H; split_trace H; subst; discriminate He|].
      split; [intros _; eexists; reflexivity | intros _; split; reflexivity].
    + split.
      * intros t1 e t2 H He. unfold reg_read, reg_write in H. split_trace H; subst;
          try discriminate He; left; reflexivity.
      * split; [intros _; eexists; reflexivity | discriminate].
Qed.

(** A NaN passes both range tests, every comparison with it being false,
    and reaches the conversion to [uint8_t], which is undefined for it. *)
Remark set_rail_nan_undefined (hw : hardware) (h : list event) :
  s1_pmic_set_vaux hw S754_nan h = None /\ s1_pmic_set_vio S754_nan h = None.
Proof. split; reflexivity. Qed.

(** C3 (as the code behaves): a request of 0.0 V never reaches the
    shutdown branch, the range check rejects it first: both setters return
    [S1_INVALID_SETTING] and write nothing. *)
Theorem set_rail_zero_rejected (hw : hardware) (h : list event) :
  s1_pmic_set_vaux hw (S754_zero false) h = Some (S1_INVALID_SETTING, [])
  /\ s1_pmic_set_vio (S754_zero false) h = Some (S1_INVALID_SETTING, []).
Proof. split; reflexivity. Qed.

(** Between 0.8 V and 5.5 V, as the code tests it. *)
Lemma set_vaux_in_range_ieee (hw : hardware) (voltage : spec_float) (h : list event) :
  is_float voltage = true ->
  dle (dlit 8 10) (double_of_float voltage) = true ->
  dle (double_of_float voltage) (dlit 55 10) = true ->
  (dgt (double_of_float voltage) (dlit 346 100) = true ->
   Z.testbit (u8 (pmic_answer hw h 0x39)) 3 = false) ->
  (exists code,
     trunc (ddiv (dsub (double_of_float voltage) (dlit 8 10)) (dlit 5 100)) = Some code
     /\ 0 <= code <= 94
     /\ s1_pmic_set_vaux hw voltage h =
          Some (S1_SUCCESS,
                (if dgt (double_of_float voltage) (dlit 346 100)
                 then [reg_read 0x39] else [])
                ++ [reg_write 0x2D code; reg_write 0x2E 0x0E]))
  /\ (voltage = flit 4 1 ->
      s1_pmic_set_vaux hw voltage h =
        Some (S1_SUCCESS, [reg_read 0x39; reg_write 0x2D 64; reg_write 0x2E 0x0E])).
Proof.
  intros Hf Hl Hu Hmode.
  pose proof (Rounding.double_of_float_valid voltage Hf) as Hv.
  destruct (vaux_code_defined _ Hv Hl Hu) as (mv & ev & code & Ev & Hc & Bc).
  pose proof (set_vaux_run hw voltage h mv ev code Ev Hl Hu Hc) as R. cbv zeta in R.
  assert (R' : s1_pmic_set_vaux hw voltage h =
               Some (S1_SUCCESS,
                     (if dgt (double_of_float voltage) (dlit 346 100)
                      then [reg_read 0x39] else [])
                     ++ [reg_write 0x2D code; reg_write 0x2E 0x0E])).
  { rewrite R. destruct (dgt (double_of_float voltage) (dlit 346 100)); [|reflexivity].
    rewrite Hmode by reflexivity. reflexivity. }
  split.
  - exists code. split; [apply (to_uint8_trunc _ _ Hc)|]. split; [exact Bc | exact R'].
  - intros ->. rewrite R'.
    assert (E : code = 64) by (vm_compute in Hc; congruence).
    rewrite E. reflexivity.
Qed.

(** [s1_pmic_set_vio] outside and inside its range, as the code tests it. *)
Lemma set_vio_ieee (voltage : spec_float) (h : list event) :
  is_float voltage = true ->
  ((dlt (double_of_float voltage) (dlit 8 10) = true
    \/ dgt (double_of_float voltage) (dlit 346 100) = true) ->
   deq (double_of_float voltage) (S754_zero false) = false ->
   s1_pmic_set_vio voltage h = Some (S1_INVALID_SETTING, []))
  /\ (dle (dlit 8 10) (double_of_float voltage) = true ->
      dle (double_of_float voltage) (dlit 346 100) = true ->
      exists code,
        trunc (ddiv (dsub (double_of_float voltage) (dlit 8 10)) (dlit 25 1000))
          = Some code
        /\ 0 <= code <= 106
        /\ s1_pmic_set_vio voltage h =
             Some (S1_SUCCESS, [reg_write 0x38 code; reg_write 0x39 0x0E])).
Proof.
  intros Hf. pose proof (Rounding.double_of_float_valid voltage Hf) as Hv.
  unfold s1_pmic_set_vio. set (v := double_of_float voltage) in *. split.
  - intros [H | H] _; rewrite H, ?orb_true_r; reflexivity.
  - intros Hl Hu.
    destruct (vio_code_defined v Hv Hl Hu) as (mv & ev & code & Ev & Hc & Bc).
    exists code. split; [apply (to_uint8_trunc _ _ Hc)|]. split; [exact Bc|].
    rewrite (Rounding.SFleb_ltb_false _ _ Hl : dlt v (dlit 8 10) = false).
    rewrite (Rounding.SFleb_ltb_false _ _ Hu : dgt v (dlit 346 100) = false).
    cbn [orb]. rewrite Hc.
    replace (deq v (S754_zero false)) with false by (rewrite Ev; reflexivity).
    reflexivity.
Qed.

(** ** The range tests of the setters, read on the exact voltage *)

Lemma SFltb_iff_not_leb (a b : spec_float) :
  SFcompare a b <> None -> (SFltb a b = true <-> SFleb b a <> true).
Proof.
  intros Hc. split.
  - intros H L. apply Rounding.SFleb_ltb_false in L. congruence.
  - intros H. destruct (SFltb a b) eqn:E; [reflexivity|].
    exfalso. apply H. apply Rounding.SFltb_false_leb; assumption.
Qed.

Lemma is_finite_not_nan (x : spec_float) : is_finite x = true -> x <> S754_nan.
Proof. intros H ->. discriminate H. Qed.

Lemma double_of_float_shape (s : bool) (m : positive) (e : Z) :
  is_float (S754_finite s m e) = true ->
  exists m' e', double_of_float (S754_finite s m e) = S754_finite s m' e'.
Proof.
  intros Hf.
  unfold is_float, valid_binary, bounded, canonical_mantissa in Hf.
  apply andb_prop in Hf as [Hc Hb]. apply Z.eqb_eq in Hc. apply Z.leb_le in Hb.
  change (fexp prec32 emax32 (Zpos (digits2_pos m) + e))
    with (Z.max (Zpos (digits2_pos m) + e - 24) (-149)) in Hc.
  change (emax32 - prec32) with 104 in Hb.
  pose proof (Pos2Z.is_pos (digits2_pos m)).
  cbn [double_of_float]. change prec64 with 53. change emax64 with 1024.
  destruct (Rounding.binary_round_small s m e) as (m' & -> & _); try lia.
  eauto.
Qed.

Lemma double_of_float_finite (x : spec_float) :
  is_float x = true -> is_finite (double_of_float x) = is_finite x.
Proof.
  destruct x as [s | s | | s m e]; try reflexivity. intros Hf.
  destruct (double_of_float_shape s m e Hf) as (m' & e' & ->). reflexivity.
Qed.

Section ExactTests.

Variable voltage : spec_float.
Hypothesis Hfloat : is_float voltage = true.
Hypothesis Hfinite : is_finite voltage = true.

Let v := double_of_float voltage.

Lemma promoted_double : is_double v = true.
Proof. apply Rounding.double_of_float_valid. exact Hfloat. Qed.

Lemma promoted_finite : is_finite v = true.
Proof. unfold v. rewrite double_of_float_finite; assumption. Qed.

(** [0.8 <= voltage] *)
Lemma dle_08_exact : dle (dlit 8 10) v = true <-> (8 # 10 <= F2Q voltage)%Q.
Proof.
  rewrite <- (Exact.double_of_float_exact voltage Hfloat). fold v.
  rewrite dlit_8_10. unfold dle.
  apply Exact.SFleb_lower_exact;
    [ exact promoted_double | exact promoted_finite | | | | ];
    vm_compute; (reflexivity || (split; reflexivity) || discriminate).
Qed.

(** [voltage <= 5.5] *)
Lemma dle_55_exact : dle v (dlit 55 10) = true <-> (F2Q voltage <= 55 # 10)%Q.
Proof.
  rewrite <- (Exact.double_of_float_exact voltage Hfloat). fold v.
  rewrite dlit_55_10. unfold dle.
  apply Exact.SFleb_upper_exact;
    [ exact promoted_double | exact promoted_finite | | | | | ];
    vm_compute; (reflexivity || discriminate).
Qed.

(** [voltage <= 3.46] *)
Lemma dle_346_exact : dle v (dlit 346 100) = true <-> (F2Q voltage <= 346 # 100)%Q.
Proof.
  rewrite <- (Exact.double_of_float_exact voltage Hfloat). fold v.
  rewrite dlit_346_100. unfold dle.
  apply Exact.SFleb_upper_exact;
    [ exact promoted_double | exact promoted_finite | | | | | ];
    vm_compute; (reflexivity || discriminate).
Qed.

(** [voltage > 3.46] *)
Lemma dgt_346_exact : dgt v (dlit 346 100) = true <-> (346 # 100 < F2Q voltage)%Q.
Proof.
  unfold dgt. rewrite SFltb_iff_not_leb.
  - fold (dle v (dlit 346 100)). rewrite dle_346_exact.
    split; [apply Qnot_le_lt | apply Qlt_not_le].
  - rewrite dlit_346_100. apply SFcompare_finite_r.
    apply is_finite_not_nan. exact promoted_finite.
Qed.

(** [voltage < 0.8] *)
Lemma dlt_08_exact : dlt v (dlit 8 10) = true <-> (F2Q voltage < 8 # 10)%Q.
Proof.
  unfold dlt. rewrite SFltb_iff_not_leb.
  - fold (dle (dlit 8 10) v). rewrite dle_08_exact.
    split; [apply Qnot_le_lt | apply Qlt_not_le].
  - rewrite (Rounding.SFcompare_antisym (dlit 8 10) v), dlit_8_10.
    pose proof (SFcompare_finite_r v false m08 (-53)
                  (is_finite_not_nan _ promoted_finite)) as N.
    destruct (SFcompare (S754_finite false m08 (-53)) v); [discriminate | congruence].
Qed.

(** [voltage == 0.0] *)
Lemma deq_0_exact : deq v (S754_zero false) = true <-> (F2Q voltage == 0)%Q.
Proof.
  unfold v. destruct voltage as [s | s | | s m e]; try discriminate Hfinite.
  - split; reflexivity.
  - split.
    + intros H. exfalso. revert H.
      destruct (double_of_float_shape s m e Hfloat) as (m' & e' & ->).
      destruct s; discriminate.
    + intros H. exfalso. revert H. unfold F2Q, Qeq, signed.
      destruct e as [ | p | p]; cbn [Qnum Qden inject_Z]; destruct s;
        try (pose proof (Rounding.pow2_pos (Zpos p) ltac:(lia))); lia.
Qed.

End ExactTests.

Lemma exact_pos_finite (x : spec_float) : (0 < F2Q x)%Q -> is_finite x = true.
Proof.
  destruct x as [s | s | | s m e]; try reflexivity; intros H; discriminate H.
Qed.

(** ** The claims on the voltage setters *)

(** [voltage > 5.5] *)
Lemma dgt_55_exact (voltage : spec_float) :
  is_float voltage = true -> is_finite voltage = true ->
  dgt (double_of_float voltage) (dlit 55 10) = true <-> (55 # 10 < F2Q voltage)%Q.
Proof.
  intros Hf Hfin. unfold dgt. rewrite SFltb_iff_not_leb.
  - fold (dle (double_of_float voltage) (dlit 55 10)).
    rewrite (dle_55_exact voltage Hf Hfin).
    split; [apply Qnot_le_lt | apply Qlt_not_le].
  - rewrite dlit_55_10. apply SFcompare_finite_r.
    apply is_finite_not_nan. exact (promoted_finite voltage Hf Hfin).
Qed.

(** C2 (amended): for every voltage above 3.46 V and at most 5.5 V,
    [s1_pmic_set_vaux] reads the companion regulator's mode register 0x39
    before any register write, the read being the first event of the call,
    and when bit 3 of the value read is set the call returns
    [S1_INVALID_SETTING] without any register write.  Above 5.5 V the
    range check returns [S1_INVALID_SETTING] first: the mode register is
    not read and nothing is written. *)
Theorem set_vaux_mode_check (hw : hardware) (voltage : spec_float) (h : list event) :
  is_float voltage = true -> is_finite voltage = true ->
  (346 # 100 < F2Q voltage)%Q ->
  exists r t,
    s1_pmic_set_vaux hw voltage h = Some (r, t)
    /\ (forall t1 e t2, t = t1 ++ e :: t2 -> is_reg_write e = true ->
          In (reg_read 0x39) t1)
    /\ ((F2Q voltage <= 55 # 10)%Q -> exists rest, t = reg_read 0x39 :: rest)
    /\ (Z.testbit (u8 (pmic_answer hw h 0x39)) 3 = true ->
          r = S1_INVALID_SETTING /\ reg_writes t = [])
    /\ ((55 # 10 < F2Q voltage)%Q -> r = S1_INVALID_SETTING /\ t = []).
Proof.
  intros Hf Hfin Hgt. apply (dgt_346_exact voltage Hf Hfin) in Hgt.
  destruct (set_vaux_mode_check_ieee hw voltage h Hf Hgt) as (r & t & R & W & F & B).
  exists r, t. split; [exact R|]. split; [exact W|].
  split; [intros Hle; apply F; apply (dle_55_exact voltage Hf Hfin); exact Hle|].
  split; [exact B|].
  intros Hhi. apply (dgt_55_exact voltage Hf Hfin) in Hhi.
  unfold s1_pmic_set_vaux in R. rewrite Hhi, orb_true_r in R.
  injection R as <- <-. split; reflexivity.
Qed.

(** C5 (amended): for every voltage from 0.8 V to 5.5 V, with LDO0 not in
    load-switch mode when the mode register is consulted (above 3.46 V),
    [s1_pmic_set_vaux] returns [S1_SUCCESS]; its register writes are the
    voltage register 0x2D with the double-precision quotient
    [(v - 0.8) / 0.05] truncated toward zero, a code from 0 to 94, and then
    the control register 0x2E with 0x0E; for 4.0 V the code is 64. *)
Theorem set_vaux_truncated_code (hw : hardware) (voltage : spec_float) (h : list event) :
  is_float voltage = true ->
  (8 # 10 <= F2Q voltage)%Q -> (F2Q voltage <= 55 # 10)%Q ->
  ((346 # 100 < F2Q voltage)%Q ->
   Z.testbit (u8 (pmic_answer hw h 0x39)) 3 = false) ->
  (exists code t,
     trunc (ddiv (dsub (double_of_float voltage) (dlit 8 10)) (dlit 5 100)) = Some code
     /\ 0 <= code <= 94
     /\ s1_pmic_set_vaux hw voltage h = Some (S1_SUCCESS, t)
     /\ reg_writes t = [reg_write 0x2D code; reg_write 0x2E 0x0E]
     /\ ((346 # 100 < F2Q voltage)%Q -> t = reg_read 0x39 :: reg_writes t)
     /\ ((F2Q voltage <= 346 # 100)%Q -> t = reg_writes t))
  /\ (voltage = flit 4 1 ->
      s1_pmic_set_vaux hw voltage h =
        Some (S1_SUCCESS, [reg_read 0x39; reg_write 0x2D 64; reg_write 0x2E 0x0E])).
Proof.
  intros Hf Hlo Hhi Hmode.
  assert (Hfin : is_finite voltage = true).
  { apply exact_pos_finite. apply Qlt_le_trans with (2 := Hlo). reflexivity. }
  pose proof (proj2 (dle_08_exact voltage Hf Hfin) Hlo) as Hl.
  pose proof (proj2 (dle_55_exact voltage Hf Hfin) Hhi) as Hu.
  pose proof (dgt_346_exact voltage Hf Hfin) as G.
  destruct (set_vaux_in_range_ieee hw voltage h Hf Hl Hu) as [(code & Hc & Bc & R) R4].
  { intros Hg. apply Hmode, G, Hg. }
  split; [|exact R4].
  exists code. eexists. split; [exact Hc|]. split; [exact Bc|]. split; [exact R|].
  destruct (dgt (double_of_float voltage) (dlit 346 100)) eqn:E; cbn [app].
  - split; [reflexivity|]. split; [reflexivity|].
    intros Hle. exfalso. apply (Qlt_not_le (346 # 100) (F2Q voltage)); [|exact Hle].
    apply G. reflexivity.
  - split; [reflexivity|]. split; [|reflexivity].
    intros Hg. apply G in Hg. discriminate Hg.
Qed.

(** C6 (amended): for every voltage, [s1_pmic_set_vio] returns
    [S1_INVALID_SETTING], writing nothing, when the voltage is below 0.8 V
    or above 3.46 V (0.0 V apart), and from 0.8 V to 3.46 V it returns
    [S1_SUCCESS] after writing the voltage register 0x38 with the
    double-precision quotient [(v - 0.8) / 0.025] truncated toward zero, a
    code from 0 to 106, and then the control register 0x39 with 0x0E
    (regulator mode, discharge resistor, enable). *)
Theorem set_vio_truncated_code (voltage : spec_float) (h : list event) :
  is_float voltage = true -> is_finite voltage = true ->
  (((F2Q voltage < 8 # 10)%Q \/ (346 # 100 < F2Q voltage)%Q) ->
   ~ (F2Q voltage == 0)%Q ->
   s1_pmic_set_vio voltage h = Some (S1_INVALID_SETTING, []))
  /\ ((8 # 10 <= F2Q voltage)%Q -> (F2Q voltage <= 346 # 100)%Q ->
      exists code,
        trunc (ddiv (dsub (double_of_float voltage) (dlit 8 10)) (dlit 25 1000))
          = Some code
        /\ 0 <= code <= 106
        /\ s1_pmic_set_vio voltage h =
             Some (S1_SUCCESS, [reg_write 0x38 code; reg_write 0x39 0x0E])).
Proof.
  intros Hf Hfin. destruct (set_vio_ieee voltage h Hf) as [Out In]. split.
  - intros Hr Hz. apply Out.
    + destruct Hr as [Hr | Hr];
        [left; apply (dlt_08_exact voltage Hf Hfin) | right; apply (dgt_346_exact voltage Hf Hfin)];
        exact Hr.
    + destruct (deq (double_of_float voltage) (S754_zero false)) eqn:E; [|reflexivity].
      exfalso. apply Hz. apply (deq_0_exact voltage Hf Hfin). exact E.
  - intros Hlo Hhi. apply In.
    + apply (dle_08_exact voltage Hf Hfin). exact Hlo.
    + apply (dle_346_exact voltage Hf Hfin). exact Hhi.
Qed.

(** ** Instances *)

(** C5 as stated fails at 2.0 V: the call writes the code 23 where
    [round((2.0 - 0.8) / 0.05)] is 24, in exact arithmetic and also when
    the quotient is taken in double precision. *)
Lemma set_vaux_rounding_counterexample :
  is_float (flit 2 1) = true
  /\ (8 # 10 <= F2Q (flit 2 1) <= 55 # 10)%Q
  /\ s1_pmic_set_vaux hw_regulator (flit 2 1) [] =
       Some (S1_SUCCESS, [reg_write 0x2D 23; reg_write 0x2E 0x0E])
  /\ spec_dac_code (5 # 100) (flit 2 1) = 24
  /\ spec_dac_code_double (dlit 5 100) (flit 2 1) = 24
  /\ s1_pmic_set_vaux hw_regulator (flit 2 1) [] <>
       Some (S1_SUCCESS,
             [reg_write 0x2D (spec_dac_code (5 # 100) (flit 2 1)); reg_write 0x2E 0x0E]).
Proof.
  repeat split; try (vm_compute; reflexivity); vm_compute; discriminate.
Qed.

(** C2 as stated fails at 6.0 V: with LDO0 in load-switch mode (bit 3 of
    register 0x39 set) the call returns [S1_INVALID_SETTING] on the range
    check, and the mode register is not read. *)
Lemma set_vaux_mode_check_counterexample :
  is_float (flit 6 1) = true
  /\ (346 # 100 < F2Q (flit 6 1))%Q
  /\ Z.testbit (u8 (pmic_answer hw_load_switch [] 0x39)) 3 = true
  /\ exists t,
       s1_pmic_set_vaux hw_load_switch (flit 6 1) [] = Some (S1_INVALID_SETTING, t)
       /\ ~ In (reg_read 0x39) t.
Proof.
  split; [reflexivity|]. split; [reflexivity|]. split; [reflexivity|].
  exists []. split; [vm_compute; reflexivity | intros []].
Qed.

(** C6 as stated fails at 1.0 V: the call writes the code 7 where
    [round((1.0 - 0.8) / 0.025)] is 8. *)
Lemma set_vio_rounding_counterexample :
  is_float (flit 1 1) = true
  /\ (8 # 10 <= F2Q (flit 1 1) <= 346 # 100)%Q
  /\ s1_pmic_set_vio (flit 1 1) [] =
       Some (S1_SUCCESS, [reg_write 0x38 7; reg_write 0x39 0x0E])
  /\ spec_dac_code (25 # 1000) (flit 1 1) = 8
  /\ spec_dac_code_double (dlit 25 1000) (flit 1 1) = 8
  /\ s1_pmic_set_vio (flit 1 1) [] <>
       Some (S1_SUCCESS,
             [reg_write 0x38 (spec_dac_code (25 # 1000) (flit 1 1)); reg_write 0x39 0x0E]).
Proof.
  repeat split; try (vm_compute; reflexivity); vm_compute; discriminate.
Qed.

Lemma set_vaux_mode_check_witness :
  is_float (flit 4 1) = true
  /\ is_finite (flit 4 1) = true
  /\ (346 # 100 < F2Q (flit 4 1))%Q
  /\ exists r t,
       s1_pmic_set_vaux hw_load_switch (flit 4 1) [] = Some (r, t)
       /\ (forall t1 e t2, t = t1 ++ e :: t2 -> is_reg_write e = true ->
             In (reg_read 0x39) t1)
       /\ ((F2Q (flit 4 1) <= 55 # 10)%Q -> exists rest, t = reg_read 0x39 :: rest)
       /\ (Z.testbit (u8 (pmic_answer hw_load_switch [] 0x39)) 3 = true ->
             r = S1_INVALID_SETTING /\ reg_writes t = [])
       /\ ((55 # 10 < F2Q (flit 4 1))%Q -> r = S1_INVALID_SETTING /\ t = []).
Proof.
  split; [reflexivity|]. split; [reflexivity|]. split; [reflexivity|].
  apply (set_vaux_mode_check hw_load_switch (flit 4 1) []); reflexivity.
Defined.

Lemma set_vaux_truncated_code_witness :
  is_float (flit 4 1) = true
  /\ (8 # 10 <= F2Q (flit 4 1))%Q
  /\ (F2Q (flit 4 1) <= 55 # 10)%Q
  /\ Z.testbit (u8 (pmic_answer hw_regulator [] 0x39)) 3 = false
  /\ s1_pmic_set_vaux hw_regulator (flit 4 1) [] =
       Some (S1_SUCCESS, [reg_read 0x39; reg_write 0x2D 64; reg_write 0x2E 0x0E]).
Proof.
  split; [reflexivity|].
  split; [vm_compute; discriminate|]. split; [vm_compute; discriminate|].
  split; [reflexivity|].
  apply (set_vaux_truncated_code hw_regulator (flit 4 1) []);
    try reflexivity; vm_compute; discriminate.
Defined.

Lemma set_vio_truncated_code_witness :
  is_float (flit 5 1) = true
  /\ is_finite (flit 5 1) = true
  /\ (346 # 100 < F2Q (flit 5 1))%Q
  /\ ~ (F2Q (flit 5 1) == 0)%Q
  /\ s1_pmic_set_vio (flit 5 1) [] = Some (S1_INVALID_SETTING, [])
  /\ is_float (flit 33 10) = true
  /\ is_finite (flit 33 10) = true
  /\ (8 # 10 <= F2Q (flit 33 10))%Q
  /\ (F2Q (flit 33 10) <= 346 # 100)%Q
  /\ exists code,
       trunc (ddiv (dsub (double_of_float (flit 33 10)) (dlit 8 10)) (dlit 25 1000))
         = Some code
       /\ 0 <= code <= 106
       /\ s1_pmic_set_vio (flit 33 10) [] =
            Some (S1_SUCCESS, [reg_write 0x38 code; reg_write 0x39 0x0E]).
Proof.
  split; [reflexivity|]. split; [reflexivity|]. split; [reflexivity|].
  split; [vm_compute; discriminate|].
  split.
  { apply (set_vio_truncated_code (flit 5 1) []);
      [reflexivity | reflexivity | right; reflexivity | vm_compute; discriminate]. }
  split; [reflexivity|]. split; [reflexivity|].
  split; [vm_compute; discriminate|]. split; [vm_compute; discriminate|].
  apply (set_vio_truncated_code (flit 33 10) []);
    try reflexivity; vm_compute; discriminate.
Defined.

Lemma flash_is_busy_status_witness :
  u8 (flash_answer hw_load_switch
        (spi_setup :: rev_append [spi_setup; SPIM_TRX [0x05] 2] []) [0x05] 1)
  = u8 (flash_answer hw_load_switch [spi_setup] [0x05] 1)
  /\ s1_flash_is_busy hw_load_switch (rev_append [spi_setup; SPIM_TRX [0x05] 2] [])
     = s1_flash_is_busy hw_load_switch [].
Proof.
  split; [reflexivity|].
  apply (flash_is_busy_status hw_load_switch []). reflexivity.
Defined.

(** * Beyond the claims *)

(** ** How far rounding can fall below the value rounded *)

Module Below.

Import Rounding.

(** Rounding in the normal range loses less than one unit in the last
    place of the value rounded. *)
Lemma round_aux_normal_below (s : bool) (mx ex : Z) (lx : location) (m : positive) (e : Z) :
  0 < mx -> 53 <= Zdigits2 mx -> -1074 <= ex -> ex + Zdigits2 mx <= 1023 ->
  binary_round_aux 53 1024 s mx ex lx = S754_finite s m e ->
  ex <= e /\ mx < Zpos m * 2 ^ (e - ex) + 2 ^ (Zdigits2 mx - 53).
Proof.
  intros Hm Hd He Ho. unfold binary_round_aux.
  destruct (shr_fexp_normal mx ex lx Hm Hd He) as (r & -> & Hr).
  pose proof (div_pow2_normal mx (Zdigits2 mx) Hd (Zdigits2_bounds mx Hm)) as Hb.
  rewrite <- Hr in Hb.
  pose proof (round_nearest_even_bounds (shr_m r) (loc_of_shr_record r)) as Hn.
  set (m1 := round_nearest_even (shr_m r) (loc_of_shr_record r)) in *.
  set (k := Zdigits2 mx - 53) in *.
  assert (Hk : 0 < 2 ^ k) by (apply pow2_pos; lia).
  assert (Hmod : mx < (shr_m r + 1) * 2 ^ k).
  { rewrite Hr. pose proof (Z.div_mod mx (2 ^ k) ltac:(lia)) as D.
    pose proof (Z.mod_pos_bound mx (2 ^ k) Hk). nia. }
  destruct (Z_lt_le_dec m1 (2 ^ 53)) as [Hlt | Hge].
  - assert (D1 : Zdigits2 m1 = 53) by (apply Zdigits2_unique; change (53 - 1) with 52; lia).
    unfold shr_fexp. rewrite fexp64, D1.
    replace (Z.max (53 + (ex + Zdigits2 mx - 53) - 53) (-1074) - (ex + Zdigits2 mx - 53)) with 0 by lia.
    cbn [shr shr_record_of_loc shr_m].
    destruct m1 as [ | q | q ] eqn:Em1; try lia.
    replace (ex + Zdigits2 mx - 53 <=? 1024 - 53) with true by (symmetry; apply Z.leb_le; lia).
    intros [= <- <-]. split; [lia|].
    replace (ex + Zdigits2 mx - 53 - ex) with k by lia. nia.
  - assert (Em : m1 = 2 ^ 53) by lia.
    assert (D1 : Zdigits2 m1 = 54).
    { apply Zdigits2_unique; [lia|]. rewrite Em. change (54 - 1) with 53. split; [lia|]. reflexivity. }
    unfold shr_fexp. rewrite fexp64, D1.
    replace (Z.max (54 + (ex + Zdigits2 mx - 53) - 53) (-1074) - (ex + Zdigits2 mx - 53)) with 1 by lia.
    rewrite Em. cbn [shr shr_record_of_loc iter_pos].
    change (shr_m (shr_1 {| shr_m := 2 ^ 53; shr_r := false; shr_s := false |})) with (Zpos (Pos.pow 2 52)).
    replace (ex + Zdigits2 mx - 53 + 1 <=? 1024 - 53) with true by (symmetry; apply Z.leb_le; lia).
    intros [= <- <-]. split; [lia|].
    replace (ex + Zdigits2 mx - 53 + 1 - ex) with (1 + k) by lia.
    rewrite Z.pow_add_r by lia. change (2 ^ 1) with 2.
    change (Zpos (2 ^ 52)) with (2 ^ 52). change (2 ^ 53) with (2 * 2 ^ 52) in *.
    nia.
Qed.

Lemma binary_round_normal_below (s : bool) (p m : positive) (ex e : Z) :
  -1074 <= ex -> -1074 <= ex + Zpos (digits2_pos p) - 53 ->
  ex + Zpos (digits2_pos p) <= 1023 ->
  let b := ex + Zpos (digits2_pos p) - 53 in
  let lo := Z.min ex b in
  binary_round 53 1024 s p ex = S754_finite s m e ->
  Zpos p * 2 ^ (ex - lo) < Zpos m * 2 ^ (e - lo) + 2 ^ (b - lo).
Proof.
  intros He Hb Ho b lo.
  destruct (Z_le_gt_dec (Zpos (digits2_pos p)) 53) as [Hs | Hl].
  - destruct (binary_round_small s p ex Hs) as (m' & E & Em & Dm); [lia|].
    rewrite E. intros [= <- <-].
    replace lo with b by lia. fold b. rewrite Z.sub_diag. change (2 ^ 0) with 1.
    replace (ex - b) with (53 - Zpos (digits2_pos p)) by lia. lia.
  - unfold binary_round. rewrite fexp64, shl_align_id by lia. intros E.
    destruct (round_aux_normal_below s (Zpos p) ex loc_Exact m e) as [Le B];
      cbn [Zdigits2]; try lia; try assumption.
    cbn [Zdigits2] in B.
    replace lo with ex by lia. rewrite Z.sub_diag. change (2 ^ 0) with 1.
    replace (b - ex) with (Zpos (digits2_pos p) - 53) by lia. lia.
Qed.

Lemma SFdiv_normal_below (sx sy : bool) (mx my m : positive) (ex ey e : Z) :
  Zpos (digits2_pos mx) = 53 -> Zpos (digits2_pos my) = 53 ->
  -1074 <= ex - ey - 53 -> ex - ey <= 1020 ->
  SFdiv 53 1024 (S754_finite sx mx ex) (S754_finite sy my ey) = S754_finite (xorb sx sy) m e ->
  Zpos mx * 2 ^ 53 < (Zpos m * 2 ^ (e - (ex - ey - 53)) + 2) * Zpos my.
Proof.
  intros Dx Dy Hlo Hhi.
  unfold SFdiv, SFdiv_core_binary. cbn [Zdigits2]. rewrite Dx, Dy, fexp64.
  replace (Z.min (Z.max (53 + ex - (53 + ey) - 53) (-1074)) (ex - ey))
    with (ex - ey - 53) by lia.
  replace (ex - ey - (ex - ey - 53)) with 53 by lia.
  rewrite Z.shiftl_mul_pow2 by lia.
  pose proof (digits2_pos_bounds mx) as Bx. pose proof (digits2_pos_bounds my) as By.
  rewrite Dx in Bx. rewrite Dy in By. change (53 - 1) with 52 in *.
  set (n := Zpos mx * 2 ^ 53) in *.
  assert (Hq : Z.div_eucl n (Zpos my) = (n / Zpos my, n mod Zpos my)).
  { unfold Z.div, Z.modulo. destruct (Z.div_eucl n (Zpos my)); reflexivity. }
  rewrite Hq.
  assert (Hn : 2 ^ 105 <= n < 2 ^ 106).
  { unfold n. change (2 ^ 105) with (2 ^ 52 * 2 ^ 53). change (2 ^ 106) with (2 ^ 53 * 2 ^ 53). lia. }
  assert (Bq : 2 ^ 52 <= n / Zpos my < 2 ^ 54).
  { split.
    - apply Z.div_le_lower_bound; [lia|].
      change (2 ^ 105) with (2 ^ 53 * 2 ^ 52) in Hn. nia.
    - apply Z.div_lt_upper_bound; [lia|].
      change (2 ^ 106) with (2 ^ 52 * 2 ^ 54) in Hn. nia. }
  assert (Dq : 53 <= Zdigits2 (n / Zpos my) <= 54).
  { apply Zdigits2_range; [lia | exact Bq]. }
  assert (Hdiv : n < (n / Zpos my + 1) * Zpos my).
  { pose proof (Z.div_mod n (Zpos my) ltac:(lia)).
    pose proof (Z.mod_pos_bound n (Zpos my) ltac:(lia)). nia. }
  intros E.
  destruct (round_aux_normal_below (xorb sx sy) (n / Zpos my) (ex - ey - 53)
              (new_location (Zpos my) (n mod Zpos my)) m e) as [Le B];
    try lia; try exact E.
  assert (H2 : 2 ^ (Zdigits2 (n / Zpos my) - 53) <= 2).
  { apply (Z.pow_le_mono_r 2 _ 1); lia. }
  assert (0 < 2 ^ (e - (ex - ey - 53))) by (apply pow2_pos; lia).
  nia.
Qed.

Lemma shiftl_floor (x n K : Z) :
  0 <= x -> 0 <= K -> 0 <= n + K ->
  Z.shiftl x n * 2 ^ K <= x * 2 ^ (n + K) < (Z.shiftl x n + 1) * 2 ^ K.
Proof.
  intros Hx HK HnK.
  assert (PK : 0 < 2 ^ K) by (apply pow2_pos; lia).
  destruct (Z_le_gt_dec 0 n) as [Hn | Hn].
  - rewrite Z.shiftl_mul_pow2 by lia. rewrite Z.pow_add_r by lia.
    assert (0 < 2 ^ n) by (apply pow2_pos; lia). nia.
  - rewrite Z.shiftl_div_pow2 by lia.
    assert (Pn : 0 < 2 ^ (- n)) by (apply pow2_pos; lia).
    assert (E : 2 ^ K = 2 ^ (n + K) * 2 ^ (- n)).
    { rewrite <- Z.pow_add_r by lia. f_equal. lia. }
    assert (P : 0 < 2 ^ (n + K)) by (apply pow2_pos; lia).
    pose proof (Z.div_mod x (2 ^ (- n)) ltac:(lia)) as D.
    pose proof (Z.mod_pos_bound x (2 ^ (- n)) Pn) as B.
    rewrite E.
    generalize dependent (2 ^ (n + K)). generalize dependent (2 ^ (- n)).
    generalize dependent (2 ^ K). intros. nia.
Qed.

(** [v - 0.8] for a double [v] between 0.8 and 8, from both sides. *)
Lemma SFsub_c08_cases (mv : positive) (ev : Z) :
  Zpos (digits2_pos mv) = 53 -> -53 <= ev <= -50 ->
  let M := Zpos mv * 2 ^ (ev + 53) - Zpos m08 in
  0 <= M ->
  (M = 0 /\
   SFsub 53 1024 (S754_finite false mv ev) (S754_finite false m08 (-53)) = S754_zero false)
  \/ exists md ed,
       SFsub 53 1024 (S754_finite false mv ev) (S754_finite false m08 (-53))
         = S754_finite false md ed
       /\ Zpos (digits2_pos md) = 53
       /\ -105 <= ed <= -49
       /\ Zpos md * 2 ^ (ed + 105) <= (M + 8) * 2 ^ 52
       /\ M * 2 ^ 52 < Zpos md * 2 ^ (ed + 105) + 2 ^ 55.
Proof.
  intros Dv He M HM. unfold SFsub. cbn [cond_Zopp].
  replace (Z.min ev (-53)) with (-53) by lia.
  destruct (shl_align_spec mv ev (-53)) as [_ E]; [lia|]. rewrite E.
  rewrite (shl_align_id m08 (-53) (-53)) by lia. cbn [fst].
  replace (ev - -53) with (ev + 53) by lia.
  pose proof (digits2_pos_bounds mv) as Bv. rewrite Dv in Bv.
  assert (Hs : 2 ^ (ev + 53) <= 2 ^ 3) by (apply Z.pow_le_mono_r; lia).
  assert (Hp : 0 < 2 ^ (ev + 53)) by (apply pow2_pos; lia).
  fold M.
  assert (HMu : M < 2 ^ 56).
  { unfold M. change (2 ^ 56) with (2 ^ 53 * 2 ^ 3). nia. }
  destruct M as [ | p | p ] eqn:EM; [left; split; reflexivity | right | lia].
  cbn [binary_normalize].
  assert (Dp : 1 <= Zpos (digits2_pos p) <= 56).
  { change (Zpos (digits2_pos p)) with (Zdigits2 (Zpos p)).
    apply Zdigits2_range; [lia|]. change (2 ^ (1 - 1)) with 1. lia. }
  destruct (binary_round_normal false p (-53)) as (m & e & Er & Dm & Be & Bm); try lia.
  pose proof (binary_round_normal_below false p m (-53) e
                ltac:(lia) ltac:(lia) ltac:(lia) Er) as Bl.
  cbv zeta in Bl.
  exists m, e. rewrite Er. split; [reflexivity|]. split; [assumption|]. split; [lia|].
  set (b := -53 + Zpos (digits2_pos p) - 53) in *.
  set (lo := Z.min (-53) b) in *.
  assert (E1 : 2 ^ (e + 105) = 2 ^ (e - lo) * 2 ^ (lo + 105)).
  { rewrite <- Z.pow_add_r by lia. f_equal. lia. }
  assert (E2 : 2 ^ 52 = 2 ^ (-53 - lo) * 2 ^ (lo + 105)).
  { rewrite <- Z.pow_add_r by lia. f_equal. lia. }
  assert (E3 : 2 ^ (b - lo) * 2 ^ (lo + 105) <= 2 ^ 55).
  { rewrite <- Z.pow_add_r by lia. apply Z.pow_le_mono_r; lia. }
  assert (P : 0 < 2 ^ (lo + 105)) by (apply pow2_pos; lia).
  rewrite E1, E2. change (2 ^ 55) with 36028797018963968 in *.
  generalize dependent (2 ^ (e - lo)). generalize dependent (2 ^ (-53 - lo)).
  generalize dependent (2 ^ (b - lo)). generalize dependent (2 ^ (lo + 105)).
  intros. split; nia.
Qed.

(** The integral part [t] of the quotient [(v - 0.8) / y], bounded from
    both sides by the exact difference [M * 2 ^ -53] over [y]. *)
Lemma quotient_code_two_sided (mv my : positive) (ev ey t : Z) :
  Zpos (digits2_pos mv) = 53 -> -53 <= ev <= -50 ->
  Zpos (digits2_pos my) = 53 -> -100 <= ey <= 100 ->
  let M := Zpos mv * 2 ^ (ev + 53) - Zpos m08 in
  0 <= M ->
  IEEE.trunc
    (SFdiv 53 1024
       (SFsub 53 1024 (S754_finite false mv ev) (S754_finite false m08 (-53)))
       (S754_finite false my ey)) = Some t ->
  t * 2 ^ (158 + ey) * Zpos my <= (M + 8) * 2 ^ 105 + Zpos my * 2 ^ 57
  /\ M * 2 ^ 105 < (t + 1) * 2 ^ (158 + ey) * Zpos my + Zpos my * 2 ^ 57 + 2 ^ 108.
Proof.
  intros Dv Hev Dy Hey M HM.
  assert (PK : 0 < 2 ^ (158 + ey)) by (apply pow2_pos; lia).
  destruct (SFsub_c08_cases mv ev Dv Hev HM)
    as [[M0 ->] | (md & ed & -> & Dd & Hed & Hu & Hl)]; fold M in Hu, Hl || fold M in M0.
  - cbn. intros [= <-]. rewrite M0. lia.
  - destruct (SFdiv_normal false false md my ed ey Dd Dy) as (mq & eq & E & Dq & Heq & Hq);
      try lia.
    pose proof (SFdiv_normal_below false false md my mq ed ey eq Dd Dy
                  ltac:(lia) ltac:(lia) E) as Hql.
    rewrite E. cbn [xorb IEEE.trunc]. intros [= <-].
    set (e0 := ed - ey - 53) in *.
    destruct (shiftl_floor (Zpos mq) eq (158 + ey)) as [F1 F2]; try lia.
    replace (eq + (158 + ey)) with ((eq - e0) + (ed + 105)) in F1, F2 by lia.
    rewrite (Z.pow_add_r 2 (eq - e0) (ed + 105)) in F1, F2 by lia.
    pose proof (digits2_pos_bounds md) as Bd. rewrite Dd in Bd. change (53 - 1) with 52 in Bd.
    assert (PA : 0 < 2 ^ (eq - e0)) by (apply pow2_pos; lia).
    assert (PB : 0 < 2 ^ (ed + 105)) by (apply pow2_pos; lia).
    assert (UB : 2 ^ (ed + 105) <= 2 ^ 56) by (apply Z.pow_le_mono_r; lia).
    change (2 ^ 105) with (2 ^ 52 * 2 ^ 53). change (2 ^ 108) with (2 ^ 55 * 2 ^ 53).
    change (2 ^ 57) with (2 * 2 ^ 56).
    assert (P53 : 0 < 2 ^ 53) by (apply pow2_pos; lia).
    set (A := 2 ^ (eq - e0)) in *. set (B := 2 ^ (ed + 105)) in *.
    set (K := 2 ^ (158 + ey)) in *. set (t := Z.shiftl (Zpos mq) eq) in *.
    set (T52 := 2 ^ 52) in *. set (T53 := 2 ^ 53) in *.
    set (T55 := 2 ^ 55) in *. set (T56 := 2 ^ 56) in *.
    clearbody A B K t T52 T53 T55 T56.
    assert (Y0 : 0 < Zpos my) by lia.
    split.
    + assert (H1 : t * K * Zpos my <= Zpos mq * (A * B) * Zpos my)
        by (apply Z.mul_le_mono_nonneg_r; lia).
      assert (H2 : Zpos mq * A * Zpos my * B <= (Zpos md * T53 + 2 * Zpos my) * B)
        by (apply Z.mul_le_mono_nonneg_r; lia).
      assert (H3 : Zpos md * B * T53 <= (M + 8) * T52 * T53)
        by (apply Z.mul_le_mono_nonneg_r; lia).
      assert (H4 : 2 * Zpos my * B <= 2 * Zpos my * T56)
        by (apply Z.mul_le_mono_nonneg_l; lia).
      lia.
    + assert (H1 : Zpos mq * (A * B) * Zpos my < (t + 1) * K * Zpos my)
        by (apply Z.mul_lt_mono_pos_r; lia).
      assert (H2 : Zpos md * T53 * B < (Zpos mq * A + 2) * Zpos my * B)
        by (apply Z.mul_lt_mono_pos_r; lia).
      assert (H3 : M * T52 * T53 < (Zpos md * B + T55) * T53)
        by (apply Z.mul_lt_mono_pos_r; lia).
      assert (H4 : 2 * Zpos my * B <= 2 * Zpos my * T56)
        by (apply Z.mul_le_mono_nonneg_l; lia).
      lia.
Qed.

End Below.

(** ** The voltage a setter programs against the voltage requested *)

(** A [float] between 0.8 and a bound below 8, on the grid of [2 ^ -24],
    next to its promotion. *)
Lemma float_grid (m mb : positive) (e eb : Z) :
  is_float (S754_finite false m e) = true -> eb <= -50 ->
  dle (dlit 8 10) (double_of_float (S754_finite false m e)) = true ->
  dle (double_of_float (S754_finite false m e)) (S754_finite false mb eb) = true ->
  exists mv ev,
    double_of_float (S754_finite false m e) = S754_finite false mv ev
    /\ Zpos (digits2_pos mv) = 53
    /\ -53 <= ev <= -50
    /\ 0 <= e + 24
    /\ Zpos mv * 2 ^ (ev + 53) = Zpos m * 2 ^ (e + 24) * 2 ^ 29
    /\ Zpos m08 <= Zpos mv * 2 ^ (ev + 53).
Proof.
  intros Hf Heb. unfold is_float, valid_binary, bounded, canonical_mantissa in Hf.
  apply andb_prop in Hf as [Hc Hb]. apply Z.eqb_eq in Hc. apply Z.leb_le in Hb.
  change (fexp prec32 emax32 (Zpos (digits2_pos m) + e))
    with (Z.max (Zpos (digits2_pos m) + e - 24) (-149)) in Hc.
  change (emax32 - prec32) with 104 in Hb.
  pose proof (Pos2Z.is_pos (digits2_pos m)) as Hd.
  cbn [double_of_float]. change prec64 with 53. change emax64 with 1024.
  destruct (Rounding.binary_round_small false m e) as (mv & -> & Em & Dm); try lia.
  rewrite dlit_8_10. unfold dle. rewrite !Rounding.SFleb_pos. intros Hl Hu.
  set (d := Zpos (digits2_pos m)) in *.
  exists mv, (e + d - 53).
  pose proof (Rounding.digits2_pos_bounds mv) as Bv. rewrite Dm in Bv.
  change (2 ^ (53 - 1)) with 4503599627370496 in Bv.
  change (2 ^ 53) with 9007199254740992 in Bv.
  assert (He : -53 <= e + d - 53 <= -50) by lia.
  split; [reflexivity|]. split; [assumption|]. split; [assumption|].
  split; [lia|]. split.
  - rewrite Em, <- !Z.mul_assoc, <- !Z.pow_add_r by lia. do 2 f_equal. lia.
  - unfold m08 in *.
    destruct Hl as [Hl | [Hl Hm]].
    + assert (2 ^ 1 <= 2 ^ (e + d - 53 + 53)) by (apply Z.pow_le_mono_r; lia).
      change (2 ^ 1) with 2 in *. nia.
    + rewrite <- Hl. change (2 ^ (-53 + 53)) with 1. lia.
Qed.

Lemma F2Q_grid (m : positive) (e : Z) :
  0 <= e + 24 ->
  (F2Q (S754_finite false m e) == Qmake (Zpos m * 2 ^ (e + 24)) (2 ^ 24)%positive)%Q.
Proof.
  intros He. rewrite (Exact.F2Q_scaled false m e 24) by lia. reflexivity.
Qed.

(** The code [s1_pmic_set_vaux] writes stands for a voltage that is never
    above the one requested and less than one step of 50 mV below it,
    except that a request exactly on a step may get the step below. *)
Theorem set_vaux_accuracy (hw : hardware) (voltage : spec_float) (h : list event) :
  is_float voltage = true ->
  (8 # 10 <= F2Q voltage)%Q -> (F2Q voltage <= 55 # 10)%Q ->
  ((346 # 100 < F2Q voltage)%Q ->
   Z.testbit (u8 (pmic_answer hw h 0x39)) 3 = false) ->
  exists code t,
    s1_pmic_set_vaux hw voltage h = Some (S1_SUCCESS, t)
    /\ reg_writes t = [reg_write 0x2D code; reg_write 0x2E 0x0E]
    /\ ((8 # 10) + inject_Z code * (5 # 100) <= F2Q voltage)%Q
    /\ (F2Q voltage <= (8 # 10) + inject_Z (code + 1) * (5 # 100))%Q.
Proof.
  intros Hf Hlo Hhi Hmode.
  assert (Hfin : is_finite voltage = true).
  { apply exact_pos_finite. apply Qlt_le_trans with (2 := Hlo). reflexivity. }
  pose proof (proj2 (dle_08_exact voltage Hf Hfin) Hlo) as Hl.
  pose proof (proj2 (dle_55_exact voltage Hf Hfin) Hhi) as Hu.
  destruct (set_vaux_in_range_ieee hw voltage h Hf Hl Hu) as [(code & Hc & Bc & R) _].
  { intros Hg. apply Hmode, (dgt_346_exact voltage Hf Hfin), Hg. }
  exists code. eexists. split; [exact R|].
  split; [destruct (dgt (double_of_float voltage) (dlit 346 100)); reflexivity|].
  destruct voltage as [s | s | | s m e]; try discriminate Hfin.
  { exfalso. revert Hlo. unfold Qle. cbn. lia. }
  destruct s.
  { exfalso. revert Hlo. unfold F2Q, signed, Qle.
    destruct e as [ | p | p]; cbn [Qnum Qden inject_Z];
      try (pose proof (Rounding.pow2_pos (Zpos p) ltac:(lia))); lia. }
  rewrite dlit_55_10 in Hu.
  destruct (float_grid m 6192449487634432 e (-50) Hf ltac:(lia) Hl Hu) as (mv & ev & Ev & Dv & Hev & He & EW & HM).
  rewrite Ev, dlit_8_10, dlit_5_100 in Hc.
  destruct (Below.quotient_code_two_sided mv m08 ev (-57) code Dv Hev) as [U L];
    [reflexivity | lia | lia | exact Hc | ].
  rewrite EW in U, L. rewrite (F2Q_grid m e He).
  set (Wg := Zpos m * 2 ^ (e + 24)) in *. clearbody Wg.
  unfold m08 in *.
  change (2 ^ (158 + -57)) with 2535301200456458802993406410752 in *.
  change (2 ^ 105) with 40564819207303340847894502572032 in *.
  change (2 ^ 108) with 324518553658426726783156020576256 in *.
  change (2 ^ 57) with 144115188075855872 in *.
  change (2 ^ 29) with 536870912 in *.
  unfold Qle, Qplus, Qmult, inject_Z. cbn [Qnum Qden].
  change (Zpos (1 * 100)) with 100. change (Zpos (10 * (1 * 100))) with 1000.
  change (Zpos (2 ^ 24)) with 16777216.
  assert (U' : ((code + 16) * 16777216 - 20 * Wg) * 151115727451828646838272
               < 151115727451828646838272) by lia.
  assert (L' : - 151115727451828646838272
               < ((code + 17) * 16777216 - 20 * Wg) * 151115727451828646838272) by lia.
  split; nia.
Qed.

(** The code [s1_pmic_set_vio] writes stands for a voltage that is never
    above the one requested and at most one step of 25 mV below it. *)
Theorem set_vio_accuracy (voltage : spec_float) (h : list event) :
  is_float voltage = true ->
  (8 # 10 <= F2Q voltage)%Q -> (F2Q voltage <= 346 # 100)%Q ->
  exists code,
    s1_pmic_set_vio voltage h =
      Some (S1_SUCCESS, [reg_write 0x38 code; reg_write 0x39 0x0E])
    /\ ((8 # 10) + inject_Z code * (25 # 1000) <= F2Q voltage)%Q
    /\ (F2Q voltage <= (8 # 10) + inject_Z (code + 1) * (25 # 1000))%Q.
Proof.
  intros Hf Hlo Hhi.
  assert (Hfin : is_finite voltage = true).
  { apply exact_pos_finite. apply Qlt_le_trans with (2 := Hlo). reflexivity. }
  pose proof (proj2 (dle_08_exact voltage Hf Hfin) Hlo) as Hl.
  pose proof (proj2 (dle_346_exact voltage Hf Hfin) Hhi) as Hu.
  destruct (proj2 (set_vio_ieee voltage h Hf) Hl Hu) as (code & Hc & Bc & R).
  exists code. split; [exact R|].
  destruct voltage as [s | s | | s m e]; try discriminate Hfin.
  { exfalso. revert Hlo. unfold Qle. cbn. lia. }
  destruct s.
  { exfalso. revert Hlo. unfold F2Q, signed, Qle.
    destruct e as [ | p | p]; cbn [Qnum Qden inject_Z];
      try (pose proof (Rounding.pow2_pos (Zpos p) ltac:(lia))); lia. }
  rewrite dlit_346_100 in Hu.
  destruct (float_grid m 7791227355350958 e (-51) Hf ltac:(lia) Hl Hu)
    as (mv & ev & Ev & Dv & Hev & He & EW & HM).
  rewrite Ev, dlit_8_10, dlit_25_1000 in Hc.
  destruct (Below.quotient_code_two_sided mv m08 ev (-58) code Dv Hev) as [U L];
    [reflexivity | lia | lia | exact Hc | ].
  rewrite EW in U, L. rewrite (F2Q_grid m e He).
  set (Wg := Zpos m * 2 ^ (e + 24)) in *. clearbody Wg.
  unfold m08 in *.
  change (2 ^ (158 + -58)) with 1267650600228229401496703205376 in *.
  change (2 ^ 105) with 40564819207303340847894502572032 in *.
  change (2 ^ 108) with 324518553658426726783156020576256 in *.
  change (2 ^ 57) with 144115188075855872 in *.
  change (2 ^ 29) with 536870912 in *.
  unfold Qle, Qplus, Qmult, inject_Z. cbn [Qnum Qden].
  change (Zpos (1 * 1000)) with 1000. change (Zpos (10 * (1 * 1000))) with 10000.
  change (Zpos (2 ^ 24)) with 16777216.
  assert (U' : ((code + 32) * 16777216 - 40 * Wg) * 75557863725914323419136
               < 75557863725914323419136) by lia.
  assert (L' : - 75557863725914323419136
               < ((code + 33) * 16777216 - 40 * Wg) * 75557863725914323419136) by lia.
  split; nia.
Qed.

(** ** Every outcome of the voltage setters *)

Lemma SFcompare_finite_l (x : spec_float) (s : bool) (m : positive) (e : Z) :
  x <> S754_nan -> SFcompare x (S754_finite s m e) <> None.
Proof.
  destruct x as [sx | sx | | sx mx ex]; cbn; congruence.
Qed.

Lemma double_of_float_not_nan (x : spec_float) :
  is_float x = true -> x <> S754_nan -> double_of_float x <> S754_nan.
Proof.
  intros Hf Hn. destruct x as [s | s | | s m e]; try assumption.
  destruct (double_of_float_shape s m e Hf) as (m' & e' & ->). discriminate.
Qed.

(** A [float] that is not a NaN and passes a range test of the setters
    lies in the range. *)
Lemma range_test_passed (voltage : spec_float) (mb : positive) (eb : Z) :
  is_float voltage = true -> voltage <> S754_nan ->
  dlt (double_of_float voltage) (dlit 8 10)
  || dgt (double_of_float voltage) (S754_finite false mb eb) = false ->
  dle (dlit 8 10) (double_of_float voltage) = true
  /\ dle (double_of_float voltage) (S754_finite false mb eb) = true.
Proof.
  intros Hf Hn E. apply orb_false_elim in E as [E1 E2].
  pose proof (double_of_float_not_nan voltage Hf Hn) as Nv.
  split.
  - apply Rounding.SFltb_false_leb; [|exact E1].
    rewrite dlit_8_10. apply SFcompare_finite_l. exact Nv.
  - apply Rounding.SFltb_false_leb; [|exact E2].
    apply SFcompare_finite_r. exact Nv.
Qed.

(** The outcomes of [s1_pmic_set_vaux] on a [float] other than a NaN. *)
Lemma set_vaux_outcomes_shape (hw : hardware) (voltage : spec_float) (h : list event) :
  is_float voltage = true -> voltage <> S754_nan ->
  exists r t,
    s1_pmic_set_vaux hw voltage h = Some (r, t)
    /\ ((r = S1_INVALID_SETTING /\ (t = [] \/ t = [reg_read 0x39]))
        \/ (r = S1_SUCCESS
            /\ exists code,
                 0 <= code <= 94
                 /\ reg_writes t = [reg_write 0x2D code; reg_write 0x2E 0x0E]
                 /\ (t = reg_writes t \/ t = reg_read 0x39 :: reg_writes t))).
Proof.
  intros Hf Hn. pose proof (Rounding.double_of_float_valid voltage Hf) as Hv.
  destruct (dlt (double_of_float voltage) (dlit 8 10)
            || dgt (double_of_float voltage) (dlit 55 10)) eqn:E.
  - exists S1_INVALID_SETTING, []. split; [|left; split; [reflexivity | left; reflexivity]].
    unfold s1_pmic_set_vaux. rewrite E. reflexivity.
  - rewrite dlit_55_10 in E.
    destruct (range_test_passed voltage _ _ Hf Hn E) as [Hl Hu].
    rewrite <- dlit_55_10 in Hu.
    destruct (vaux_code_defined _ Hv Hl Hu) as (mv & ev & code & Ev & Hc & Bc).
    rewrite (set_vaux_run hw voltage h mv ev code Ev Hl Hu Hc).
    destruct (dgt (double_of_float voltage) (dlit 346 100));
      [destruct (Z.testbit (u8 (pmic_answer hw h 0x39)) 3)|]; do 2 eexists;
      (split; [reflexivity|]).
    + left. split; [reflexivity | right; reflexivity].
    + right. split; [reflexivity|]. exists code.
      split; [exact Bc|]. split; [reflexivity | right; reflexivity].
    + right. split; [reflexivity|]. exists code.
      split; [exact Bc|]. split; [reflexivity | left; reflexivity].
Qed.

(** For every [float] other than a NaN, [s1_pmic_set_vaux] is defined and
    ends in one of two ways: [S1_INVALID_SETTING] with no register written
    (and at most the mode register read), or [S1_SUCCESS] with a code of at
    most 94 written to the voltage register 0x2D and then 0x0E to the
    control register 0x2E.  The shutdown value 0x0C is never written. *)
Theorem set_vaux_outcomes (hw : hardware) (voltage : spec_float) (h : list event) :
  is_float voltage = true -> voltage <> S754_nan ->
  exists r t,
    s1_pmic_set_vaux hw voltage h = Some (r, t)
    /\ ((r = S1_INVALID_SETTING /\ (t = [] \/ t = [reg_read 0x39]))
        \/ (r = S1_SUCCESS
            /\ exists code,
                 0 <= code <= 94
                 /\ reg_writes t = [reg_write 0x2D code; reg_write 0x2E 0x0E]
                 /\ (t = reg_writes t \/ t = reg_read 0x39 :: reg_writes t))).
Proof. exact (set_vaux_outcomes_shape hw voltage h). Qed.

(** The outcomes of [s1_pmic_set_vio] on a [float] other than a NaN. *)
Lemma set_vio_outcomes_shape (voltage : spec_float) (h : list event) :
  is_float voltage = true -> voltage <> S754_nan ->
  exists r t,
    s1_pmic_set_vio voltage h = Some (r, t)
    /\ ((r = S1_INVALID_SETTING /\ t = [])
        \/ (r = S1_SUCCESS
            /\ exists code,
                 0 <= code <= 106
                 /\ t = [reg_write 0x38 code; reg_write 0x39 0x0E])).
Proof.
  intros Hf Hn.
  destruct (dlt (double_of_float voltage) (dlit 8 10)
            || dgt (double_of_float voltage) (dlit 346 100)) eqn:E.
  - exists S1_INVALID_SETTING, []. split; [|left; split; reflexivity].
    unfold s1_pmic_set_vio. rewrite E. reflexivity.
  - rewrite dlit_346_100 in E.
    destruct (range_test_passed voltage _ _ Hf Hn E) as [Hl Hu].
    rewrite <- dlit_346_100 in Hu.
    destruct (proj2 (set_vio_ieee voltage h Hf) Hl Hu) as (code & _ & Bc & R).
    exists S1_SUCCESS. eexists. split; [exact R|].
    right. split; [reflexivity|]. exists code. split; [exact Bc | reflexivity].
Qed.

(** For every [float] other than a NaN, [s1_pmic_set_vio] is defined and
    either returns [S1_INVALID_SETTING] without any bus traffic, or returns
    [S1_SUCCESS] having written a code of at most 106 (3.45 V) to the
    voltage register 0x38 and then 0x0E to the control register 0x39.  The
    shutdown value 0x0C is never written. *)
Theorem set_vio_outcomes (voltage : spec_float) (h : list event) :
  is_float voltage = true -> voltage <> S754_nan ->
  exists r t,
    s1_pmic_set_vio voltage h = Some (r, t)
    /\ ((r = S1_INVALID_SETTING /\ t = [])
        \/ (r = S1_SUCCESS
            /\ exists code,
                 0 <= code <= 106
                 /\ t = [reg_write 0x38 code; reg_write 0x39 0x0E])).
Proof. exact (set_vio_outcomes_shape voltage h). Qed.

(** [s1_pmic_set_vaux] returns [S1_INVALID_SETTING] without any bus
    traffic exactly for the voltages below 0.8 V or above 5.5 V; 0.0 V is
    among them. *)
Theorem set_vaux_rejected_unread (hw : hardware) (voltage : spec_float) (h : list event) :
  is_float voltage = true -> is_finite voltage = true ->
  s1_pmic_set_vaux hw voltage h = Some (S1_INVALID_SETTING, [])
  <-> ((F2Q voltage < 8 # 10)%Q \/ (55 # 10 < F2Q voltage)%Q).
Proof.
  intros Hf Hfin.
  pose proof (dlt_08_exact voltage Hf Hfin) as L.
  pose proof (dgt_55_exact voltage Hf Hfin) as G.
  split.
  - intros R.
    destruct (dlt (double_of_float voltage) (dlit 8 10)) eqn:E1;
      [left; apply L; reflexivity|].
    destruct (dgt (double_of_float voltage) (dlit 55 10)) eqn:E2;
      [right; apply G; reflexivity|].
    exfalso.
    assert (E : dlt (double_of_float voltage) (dlit 8 10)
                || dgt (double_of_float voltage) (S754_finite false 6192449487634432 (-50))
                = false) by (rewrite <- dlit_55_10, E1, E2; reflexivity).
    destruct (range_test_passed voltage _ _ Hf (is_finite_not_nan _ Hfin) E) as [Hl Hu].
    rewrite <- dlit_55_10 in Hu.
    destruct (vaux_code_defined _ (Rounding.double_of_float_valid _ Hf) Hl Hu)
      as (mv & ev & code & Ev & Hc & Bc).
    rewrite (set_vaux_run hw voltage h mv ev code Ev Hl Hu Hc) in R.
    destruct (dgt (double_of_float voltage) (dlit 346 100));
      [destruct (Z.testbit (u8 (pmic_answer hw h 0x39)) 3)|]; discriminate R.
  - intros Hout. unfold s1_pmic_set_vaux.
    destruct Hout as [Ho | Ho]; [apply L in Ho | apply G in Ho];
      rewrite Ho, ?orb_true_r; reflexivity.
Qed.

(** ** Initialisation *)

(** [s1_init] configures the reset pin as an output and the done pin as an
    input with pull-up, initialises and enables the I2C peripheral on its
    two pins and then reads the PMIC register 0x14, in that order and
    nothing else; it returns [S1_SUCCESS] when the byte read is 0x7A and
    [S1_PMIC_ERROR] otherwise. *)
Theorem s1_init_checks_chip_id (hw : hardware) (h : list sys_event) :
  let chip_id := u8 (pmic_answer hw (bus_of h) 0x14) in
  exists r,
    s1_init hw h =
      Some (r, [GPIO_CFG_OUTPUT 20; GPIO_CFG_INPUT 16 NRF_GPIO_PIN_PULLUP;
                TWIM_INIT 17 14; TWIM_ENABLE; BUS (reg_read 0x14)])
    /\ (r = S1_SUCCESS <-> chip_id = 0x7A)
    /\ (r = S1_SUCCESS \/ r = S1_PMIC_ERROR).
Proof.
  intros chip_id.
  cbv [s1_init sbind nrf_gpio_cfg_output nrf_gpio_cfg_input nrfx_twim_init
       nrfx_twim_enable semit sret on_bus pmic_read_reg APP_ERROR_CHECK
       nrfx_twim_xfer_txrx rev_append map app].
  cbn [bus_of]. change (u8 (pmic_answer hw (bus_of h) 0x14)) with chip_id.
  destruct (Z.eqb_spec chip_id 0x7A) as [E | E]; cbn [negb]; eexists;
    (split; [reflexivity|]); split.
  - tauto.
  - left; reflexivity.
  - split; [discriminate | tauto].
  - right; reflexivity.
Qed.

(** ** Any sequence of calls *)

Lemma bus_of_app (t1 t2 : list sys_event) :
  bus_of (t1 ++ t2) = bus_of t1 ++ bus_of t2.
Proof.
  induction t1 as [ | e t1 IH]; [reflexivity|].
  destruct e; cbn [app bus_of]; rewrite IH; reflexivity.
Qed.

Lemma bus_of_map_BUS (t : list event) : bus_of (map BUS t) = t.
Proof.
  induction t as [ | e t IH]; [reflexivity|]. cbn [map bus_of]. rewrite IH. reflexivity.
Qed.

Lemma on_bus_inv {A} (m : M A) (h : list sys_event) (a : A) (t : list sys_event) :
  on_bus m h = Some (a, t) ->
  exists tb, m (bus_of h) = Some (a, tb) /\ t = map BUS tb.
Proof.
  unfold on_bus. destruct (m (bus_of h)) as [[a' tb] | ]; [|discriminate].
  intros [= <- <-]. exists tb. split; reflexivity.
Qed.

Lemma sbind_drop_inv {A} (m : S A) (h : list sys_event) (t : list sys_event) :
  sbind m (fun _ => sret tt) h = Some (tt, t) -> exists a, m h = Some (a, t).
Proof.
  unfold sbind, sret. destruct (m h) as [[a t1] | ]; [|discriminate].
  rewrite app_nil_r. intros [= <-]. exists a. reflexivity.
Qed.

Lemma do_calls_cons_inv (hw : hardware) (c : s1_call) (cs : list s1_call)
      (h t : list sys_event) :
  do_calls hw (c :: cs) h = Some (tt, t) ->
  exists t1 t2,
    do_call hw c h = Some (tt, t1)
    /\ do_calls hw cs (rev_append t1 h) = Some (tt, t2)
    /\ t = t1 ++ t2.
Proof.
  cbn [do_calls]. unfold sbind at 1.
  destruct (do_call hw c h) as [[[] t1] | ]; [|discriminate].
  destruct (do_calls hw cs (rev_append t1 h)) as [[[] t2] | ] eqn:E2; [|discriminate].
  intros [= <-]. exists t1, t2. split; [reflexivity|]. split; [exact E2 | reflexivity].
Qed.

Lemma flash_wakeup_trace (hw : hardware) (h : list event) :
  exists r,
    s1_flash_wakeup hw h =
      Some (r, [spi_setup; SPIM_TRX [0xAB; 0; 0; 0] 0; DELAY_US 3;
                spi_setup; SPIM_TRX [0x66] 0; spi_setup; SPIM_TRX [0x99] 0;
                DELAY_US 30; spi_setup; SPIM_TRX [0x9F] 4]).
Proof.
  cbv [s1_flash_wakeup bind flash_tx_rx APP_ERROR_CHECK nrfx_spim_init
       nrfx_spim_xfer NRFX_DELAY_US emit ret rev_append
       rx_fill map seq nth app firstn skipn].
  destruct (negb _); eexists; reflexivity.
Qed.

Lemma flash_is_busy_trace (hw : hardware) (h : list event) :
  exists b, s1_flash_is_busy hw h = Some (b, [spi_setup; SPIM_TRX [0x05] 2]).
Proof.
  cbv [s1_flash_is_busy bind flash_tx_rx APP_ERROR_CHECK nrfx_spim_init
       nrfx_spim_xfer emit ret rev_append
       rx_fill map seq nth app firstn skipn].
  destruct (_ =? 0); eexists; reflexivity.
Qed.

(** A block of I2C transfers among which no write disables the core rail. *)
Lemma call_block_twim (tb : list event) :
  forallb pmic_access_ok tb = true ->
  forallb (fun e => match e with
                    | TWIM_TX _ tx => negb (is_core_off tx)
                    | TWIM_TXRX _ _ _ => true
                    | _ => false
                    end) tb = true ->
  call_block tb.
Proof.
  intros Hok Htw. split; [exact Hok|]. clear Hok.
  induction tb as [ | e tb IH].
  - repeat split; intros; cbn; auto.
  - cbn [forallb] in Htw. apply andb_prop in Htw as [He Ht].
    destruct (IH Ht) as (I1 & I2 & I3 & I4).
    destruct e as [addr tx | addr tx n | c | tx n | us]; try discriminate He.
    + split; [intros; cbn; auto|]. split; [intros; cbn; auto|].
      split; [|exact I4].
      intros p rest H. cbn [app core_off_guarded].
      rewrite (I3 (Some (TWIM_TX addr tx)) rest H), andb_true_r.
      apply negb_true_iff in He. rewrite He. reflexivity.
    + repeat split; intros; cbn; auto.
Qed.

(** A block of bus traffic within the system. *)
Lemma bus_block (tb : list event) (c : s1_call) :
  setup_of c = [] ->
  call_block tb ->
  call_block (bus_of (map BUS tb))
  /\ forallb pin_use_ok (map BUS tb) = true
  /\ filter is_setup (map BUS tb) = setup_of c.
Proof.
  intros -> B. rewrite bus_of_map_BUS. split; [exact B|].
  destruct B as (_ & _ & _ & _ & P). clear c.
  induction tb as [ | e tb IH]; [split; reflexivity|].
  cbn [forallb] in P. apply andb_prop in P as [Pe Pt].
  destruct (IH Pt) as [I1 I2].
  cbn [map forallb filter pin_use_ok is_setup]. rewrite Pe, I1, I2.
  split; reflexivity.
Qed.

Lemma s1_init_trace (hw : hardware) (h : list sys_event) :
  exists r,
    s1_init hw h =
      Some (r, [GPIO_CFG_OUTPUT 20; GPIO_CFG_INPUT 16 NRF_GPIO_PIN_PULLUP;
                TWIM_INIT 17 14; TWIM_ENABLE; BUS (reg_read 0x14)]).
Proof.
  cbv [s1_init sbind nrf_gpio_cfg_output nrf_gpio_cfg_input nrfx_twim_init
       nrfx_twim_enable semit sret on_bus pmic_read_reg APP_ERROR_CHECK
       nrfx_twim_xfer_txrx rev_append map app].
  destruct (negb _); eexists; reflexivity.
Qed.

Ltac flash_block :=
  split; [reflexivity|]; split; [reflexivity|];
  split; [intros p rest H; cbn; apply H|];
  split; [intros p rest H; cbn; apply H | reflexivity].

Lemma do_call_block (hw : hardware) (c : s1_call) (h t : list sys_event) :
  float_call c = true ->
  do_call hw c h = Some (tt, t) ->
  call_block (bus_of t)
  /\ forallb pin_use_ok t = true
  /\ filter is_setup t = setup_of c.
Proof.
  intros Hf R. destruct c as [ | v | v | b | | | | ]; cbn [do_call float_call] in *.
  - apply sbind_drop_inv in R as [r R].
    destruct (s1_init_trace hw h) as (r' & R').
    rewrite R' in R. injection R as <- <-.
    split; [apply call_block_twim; reflexivity|]. split; reflexivity.
  - apply sbind_drop_inv in R as [r R]. apply on_bus_inv in R as (tb & R & ->).
    apply bus_block; [reflexivity|].
    assert (Hn : v <> S754_nan) by (intros ->; discriminate R).
    destruct (set_vaux_outcomes_shape hw v (bus_of h) Hf Hn) as (r' & t' & R' & Sh).
    rewrite R' in R. injection R as <- <-.
    destruct Sh as [[_ [-> | ->]] | [_ (code & Bc & W & [E | E])]];
      try (apply call_block_twim; reflexivity);
      rewrite E, W; apply call_block_twim; try reflexivity;
      cbn [forallb pmic_access_ok reg_write reg_read];
      replace (0 <=? code) with true by (symmetry; apply Z.leb_le; lia);
      replace (code <=? 94) with true by (symmetry; apply Z.leb_le; lia);
      reflexivity.
  - apply sbind_drop_inv in R as [r R]. apply on_bus_inv in R as (tb & R & ->).
    apply bus_block; [reflexivity|].
    assert (Hn : v <> S754_nan) by (intros ->; discriminate R).
    destruct (set_vio_outcomes_shape v (bus_of h) Hf Hn) as (r' & t' & R' & Sh).
    rewrite R' in R. injection R as <- <-.
    destruct Sh as [[_ ->] | [_ (code & Bc & ->)]];
      apply call_block_twim; try reflexivity.
    cbn [forallb pmic_access_ok reg_write].
    replace (0 <=? code) with true by (symmetry; apply Z.leb_le; lia).
    replace (code <=? 106) with true by (symmetry; apply Z.leb_le; lia).
    reflexivity.
  - apply on_bus_inv in R as (tb & R & ->).
    apply bus_block; [reflexivity|].
    destruct b; injection R as <-; [apply call_block_twim; reflexivity|].
    split; [reflexivity|]. split; [reflexivity|].
    split; [intros p rest H; cbn; rewrite ?andb_true_r; apply H|].
    split; [intros p rest H; cbn; rewrite ?andb_true_r; apply H | reflexivity].
  - apply sbind_drop_inv in R as [r R]. apply on_bus_inv in R as (tb & R & ->).
    apply bus_block; [reflexivity|].
    destruct (flash_wakeup_trace hw (bus_of h)) as (r' & R').
    rewrite R' in R. injection R as <- <-. flash_block.
  - apply on_bus_inv in R as (tb & R & ->).
    apply bus_block; [reflexivity|].
    injection R as <-. flash_block.
  - apply sbind_drop_inv in R as [r R]. apply on_bus_inv in R as (tb & R & ->).
    apply bus_block; [reflexivity|].
    destruct (flash_is_busy_trace hw (bus_of h)) as (b' & R').
    rewrite R' in R. injection R as <- <-. flash_block.
  - injection R as <-.
    split; [apply call_block_twim; reflexivity|]. split; reflexivity.
Qed.

(** Whatever calls an application makes with [float] arguments, in
    whatever order, [s1_init] among them, the PMIC only ever sees the read
    of its chip identification 0x14, the read of its mode register 0x39
    and the writes listed in [pmic_access_ok]: the core voltage code
    is always 0x08, the I/O rail code never exceeds 106 (3.45 V) and the
    auxiliary rail code never exceeds 94 (5.5 V). *)
Theorem calls_pmic_accesses (hw : hardware) (cs : list s1_call) :
  forallb float_call cs = true ->
  forall (h t : list sys_event),
    do_calls hw cs h = Some (tt, t) ->
    forallb pmic_access_ok (bus_of t) = true.
Proof.
  induction cs as [ | c cs IH]; intros Hf h t R.
  - injection R as <-. reflexivity.
  - cbn [forallb] in Hf. apply andb_prop in Hf as [Hc Hcs].
    apply do_calls_cons_inv in R as (t1 & t2 & R1 & R2 & ->).
    destruct (do_call_block hw c h t1 Hc R1) as [(B1 & _) _].
    rewrite bus_of_app, forallb_app, B1. exact (IH Hcs _ _ R2).
Qed.

(** Whatever calls an application makes, each SPI transfer comes directly
    after a configuration of the SPI peripheral, and the erase opcode 0x60
    is only ever sent in the transaction that follows a write-enable 0x06. *)
Theorem calls_flash_protocol (hw : hardware) (cs : list s1_call) :
  forallb float_call cs = true ->
  forall (h t : list sys_event),
    do_calls hw cs h = Some (tt, t) ->
    init_before_trx (bus_of t) = true
    /\ erase_guarded None (spi_transactions (bus_of t)) = true.
Proof.
  intros Hf h t R.
  enough (G : init_before_trx (bus_of t) = true
              /\ forall p, erase_guarded p (spi_transactions (bus_of t)) = true)
    by (split; [apply G | apply (proj2 G)]).
  revert Hf h t R.
  induction cs as [ | c cs IH]; intros Hf h t R.
  - injection R as <-. split; [reflexivity | intros p; reflexivity].
  - cbn [forallb] in Hf. apply andb_prop in Hf as [Hc Hcs].
    apply do_calls_cons_inv in R as (t1 & t2 & R1 & R2 & ->).
    destruct (do_call_block hw c h t1 Hc R1) as [(_ & B2 & B3 & _) _].
    destruct (IH Hcs _ _ R2) as [I1 I2].
    rewrite bus_of_app. split.
    + rewrite B2. exact I1.
    + intros p. unfold spi_transactions at 1. rewrite filter_app.
      apply B3. exact I2.
Qed.

(** Whatever calls an application makes, every pin keeps the one role it
    has on the module: each configuration of the SPI peripheral names the
    pins 15, 11, 8 and 12 of the flash, the I2C peripheral is set up on
    pins 17 and 14, pin 16 is an input with pull-up, and pin 20 is the only
    output and the only pin driven, by [nrf_gpio_pin_clear].  The GPIO and
    I2C configuration in the trace is that of [s1_init], once for each call
    of [s1_init] and in the order of the calls; no other function issues
    any. *)
Theorem calls_pins (hw : hardware) (cs : list s1_call) :
  forallb float_call cs = true ->
  forall (h t : list sys_event),
    do_calls hw cs h = Some (tt, t) ->
    forallb pin_use_ok t = true
    /\ filter is_setup t = flat_map setup_of cs.
Proof.
  induction cs as [ | c cs IH]; intros Hf h t R.
  - injection R as <-. split; reflexivity.
  - cbn [forallb] in Hf. apply andb_prop in Hf as [Hc Hcs].
    apply do_calls_cons_inv in R as (t1 & t2 & R1 & R2 & ->).
    destruct (do_call_block hw c h t1 Hc R1) as (_ & P1 & F1).
    destruct (IH Hcs _ _ R2) as [P2 F2].
    rewrite forallb_app, filter_app, P1, P2, F1, F2. split; reflexivity.
Qed.

(** Whatever calls an application makes, the core rail is only ever
    disabled by the I2C write that directly follows the shutdown of the
    I/O rail. *)
Theorem calls_core_off_guarded (hw : hardware) (cs : list s1_call) :
  forallb float_call cs = true ->
  forall (h t : list sys_event),
    do_calls hw cs h = Some (tt, t) ->
    core_off_guarded None (bus_of t) = true.
Proof.
  intros Hf h t R.
  enough (G : forall p, core_off_guarded p (bus_of t) = true) by apply G.
  revert Hf h t R.
  induction cs as [ | c cs IH]; intros Hf h t R.
  - injection R as <-. intros p; reflexivity.
  - cbn [forallb] in Hf. apply andb_prop in Hf as [Hc Hcs].
    apply do_calls_cons_inv in R as (t1 & t2 & R1 & R2 & ->).
    destruct (do_call_block hw c h t1 Hc R1) as [(_ & _ & _ & B4 & _) _].
    intros p. rewrite bus_of_app. apply B4. exact (IH Hcs _ _ R2).
Qed.

(** ** Instances of the further properties *)

Lemma set_vaux_accuracy_witness :
  is_float (flit 2 1) = true
  /\ (8 # 10 <= F2Q (flit 2 1))%Q
  /\ (F2Q (flit 2 1) <= 55 # 10)%Q
  /\ exists code t,
       s1_pmic_set_vaux hw_regulator (flit 2 1) [] = Some (S1_SUCCESS, t)
       /\ reg_writes t = [reg_write 0x2D code; reg_write 0x2E 0x0E]
       /\ ((8 # 10) + inject_Z code * (5 # 100) <= F2Q (flit 2 1))%Q
       /\ (F2Q (flit 2 1) <= (8 # 10) + inject_Z (code + 1) * (5 # 100))%Q.
Proof.
  split; [reflexivity|].
  split; [vm_compute; discriminate|]. split; [vm_compute; discriminate|].
  apply (set_vaux_accuracy hw_regulator (flit 2 1) []);
    try reflexivity; vm_compute; discriminate.
Defined.

Lemma set_vio_accuracy_witness :
  is_float (flit 1 1) = true
  /\ (8 # 10 <= F2Q (flit 1 1))%Q
  /\ (F2Q (flit 1 1) <= 346 # 100)%Q
  /\ exists code,
       s1_pmic_set_vio (flit 1 1) [] =
         Some (S1_SUCCESS, [reg_write 0x38 code; reg_write 0x39 0x0E])
       /\ ((8 # 10) + inject_Z code * (25 # 1000) <= F2Q (flit 1 1))%Q
       /\ (F2Q (flit 1 1) <= (8 # 10) + inject_Z (code + 1) * (25 # 1000))%Q.
Proof.
  split; [reflexivity|].
  split; [vm_compute; discriminate|]. split; [vm_compute; discriminate|].
  apply (set_vio_accuracy (flit 1 1) []);
    try reflexivity; vm_compute; discriminate.
Defined.

Lemma set_vaux_rejected_unread_witness :
  is_float (flit 6 1) = true
  /\ is_finite (flit 6 1) = true
  /\ (s1_pmic_set_vaux hw_regulator (flit 6 1) [] = Some (S1_INVALID_SETTING, [])
      <-> ((F2Q (flit 6 1) < 8 # 10)%Q \/ (55 # 10 < F2Q (flit 6 1))%Q)).
Proof.
  split; [reflexivity|]. split; [reflexivity|].
  apply (set_vaux_rejected_unread hw_regulator (flit 6 1) []); reflexivity.
Defined.

Lemma set_vaux_outcomes_witness :
  is_float (flit 4 1) = true
  /\ flit 4 1 <> S754_nan
  /\ exists r t,
       s1_pmic_set_vaux hw_load_switch (flit 4 1) [] = Some (r, t)
       /\ ((r = S1_INVALID_SETTING /\ (t = [] \/ t = [reg_read 0x39]))
           \/ (r = S1_SUCCESS
               /\ exists code,
                    0 <= code <= 94
                    /\ reg_writes t = [reg_write 0x2D code; reg_write 0x2E 0x0E]
                    /\ (t = reg_writes t \/ t = reg_read 0x39 :: reg_writes t))).
Proof.
  split; [reflexivity|]. split; [vm_compute; discriminate|].
  apply (set_vaux_outcomes hw_load_switch (flit 4 1) []);
    [reflexivity | vm_compute; discriminate].
Defined.

Lemma set_vio_outcomes_witness :
  is_float (flit 33 10) = true
  /\ flit 33 10 <> S754_nan
  /\ exists r t,
       s1_pmic_set_vio (flit 33 10) [] = Some (r, t)
       /\ ((r = S1_INVALID_SETTING /\ t = [])
           \/ (r = S1_SUCCESS
               /\ exists code,
                    0 <= code <= 106
                    /\ t = [reg_write 0x38 code; reg_write 0x39 0x0E])).
Proof.
  split; [reflexivity|]. split; [vm_compute; discriminate|].
  apply (set_vio_outcomes (flit 33 10) []);
    [reflexivity | vm_compute; discriminate].
Defined.

Lemma calls_pmic_accesses_witness :
  forallb float_call sample_session = true
  /\ exists t,
       do_calls hw_regulator sample_session [] = Some (tt, t)
       /\ forallb pmic_access_ok (bus_of t) = true.
Proof.
  split; [reflexivity|]. eexists. split; [vm_compute; reflexivity|].
  apply (calls_pmic_accesses hw_regulator sample_session eq_refl []).
  vm_compute; reflexivity.
Defined.

Lemma calls_flash_protocol_witness :
  forallb float_call sample_session = true
  /\ exists t,
       do_calls hw_regulator sample_session [] = Some (tt, t)
       /\ init_before_trx (bus_of t) = true
       /\ erase_guarded None (spi_transactions (bus_of t)) = true.
Proof.
  split; [reflexivity|]. eexists. split; [vm_compute; reflexivity|].
  apply (calls_flash_protocol hw_regulator sample_session eq_refl []).
  vm_compute; reflexivity.
Defined.

Lemma calls_pins_witness :
  forallb float_call sample_session = true
  /\ exists t,
       do_calls hw_regulator sample_session [] = Some (tt, t)
       /\ forallb pin_use_ok t = true
       /\ filter is_setup t = flat_map setup_of sample_session.
Proof.
  split; [reflexivity|]. eexists. split; [vm_compute; reflexivity|].
  apply (calls_pins hw_regulator sample_session eq_refl []).
  vm_compute; reflexivity.
Defined.

Lemma calls_core_off_guarded_witness :
  forallb float_call sample_session = true
  /\ exists t,
       do_calls hw_regulator sample_session [] = Some (tt, t)
       /\ core_off_guarded None (bus_of t) = true.
Proof.
  split; [reflexivity|]. eexists. split; [vm_compute; reflexivity|].
  apply (calls_core_off_guarded hw_regulator sample_session eq_refl []).
  vm_compute; reflexivity.
Defined.
